(** * Carbon credit price simulator: the simulation engine of [Carlos.py]

    A shallow embedding of class [CarbonCreditSimulation] (lines 8-113 of
    [src/Carlos.py]) and the properties of its specification.

    Numbers.  The program computes on IEEE doubles through numpy.  The
    embedding computes on the rationals [Q]: every arithmetic operation is
    the exact one, so a statement [x == y] below is an equality of the
    real-number values the program approximates, and rounding is outside
    the model.  [Qinv 0] is [0], where numpy yields [inf]; the only division
    of the engine is by [(1 + discount_rate) ^ year], so the model is
    faithful wherever [1 + discount_rate] is not zero.

    Exceptions.  Python exceptions are values of [exn]; a computation that
    may raise returns a [result].

    Randomness.  [np.random.normal] reads the global generator of numpy.
    The generator is explicit here: a state [rng] holds the sequence of
    standard normal variates the generator will deliver and the position of
    the next one. *)

From Stdlib Require Import QArith Qround Qminmax Qpower ZArith Lia Lqa.
From stdpp Require Import base list.

Open Scope Q_scope.

(** ** Exceptions and results *)

Inductive exn : Set :=
| IndexError
| ValueError
| KeyError.

Inductive result (A : Type) : Type :=
| Ok (a : A)
| Raise (e : exn).

Arguments Ok {A} a.
Arguments Raise {A} e.

Definition bind {A B : Type} (m : result A) (k : A -> result B) : result B :=
  match m with
  | Ok a => k a
  | Raise e => Raise e
  end.

Notation "x <- m ;; k" := (bind m (fun x => k))
  (at level 100, m at next level, right associativity).

Definition is_ok {A : Type} (m : result A) : bool :=
  match m with Ok _ => true | Raise _ => false end.

Definition to_option {A : Type} (m : result A) : option A :=
  match m with Ok a => Some a | Raise _ => None end.

(** [for x in xs: acc = body(acc, x)], stopping at the first exception. *)
Fixpoint for_each {A S : Type} (xs : list A) (s : S) (body : S -> A -> result S)
  : result S :=
  match xs with
  | [] => Ok s
  | x :: xs' => s' <- body s x ;; for_each xs' s' body
  end.

(** [range(n)] for a Python integer: empty when [n <= 0]. *)
Definition range (n : Z) : list nat := seq 0 (Z.to_nat n).

Definition Qltb (x y : Q) : bool := negb (Qle_bool y x).

(** ** The numpy and pandas operations the engine calls *)

Module np.

(** [np.zeros(n)]: a negative dimension raises [ValueError]. *)
Definition zeros (n : Z) : result (list Q) :=
  if (n <? 0)%Z then Raise ValueError else Ok (replicate (Z.to_nat n) 0).

(** [a[i]] for an index [i >= 0]. *)
Definition getitem (a : list Q) (i : nat) : result Q :=
  match a !! i with
  | Some x => Ok x
  | None => Raise IndexError
  end.

(** [a[i] = x] for an index [i >= 0]: out of range raises [IndexError]. *)
Definition setitem (a : list Q) (i : nat) (x : Q) : result (list Q) :=
  match a !! i with
  | Some _ => Ok (<[i:=x]> a)
  | None => Raise IndexError
  end.

(** [a[i] += x]. *)
Definition iadd_item (a : list Q) (i : nat) (x : Q) : result (list Q) :=
  v <- getitem a i ;; setitem a i (v + x).

(** [a[start:] = x]: the scalar is broadcast over the slice, which is empty
    when [start >= len(a)]; never raises. *)
Definition set_slice_from (a : list Q) (start : nat) (x : Q) : list Q :=
  take start a ++ replicate (length a - start) x.

(** [np.arange(n)]. *)
Definition arange (n : nat) : list nat := seq 0 n.

(** [np.sum(a)]. *)
Definition sum (a : list Q) : Q := foldr Qplus 0 a.

(** [np.mean(a)]; on an empty array numpy gives NaN, which [Q] has not: the
    engine calls it after the percentile of the same array was taken. *)
Definition mean (a : list Q) : Q := sum a / inject_Z (Z.of_nat (length a)).

(** [np.linspace(start, stop, num)]: [arange(num) * step + start] with
    [step = (stop - start) / (num - 1)], the last entry then set to [stop]. *)
Definition linspace (start stop : Q) (num : nat) : list Q :=
  let step := (stop - start) / inject_Z (Z.of_nat (num - 1)) in
  let y := (fun i : nat => inject_Z (Z.of_nat i) * step + start) <$> arange num in
  if (1 <? num)%nat then <[(num - 1)%nat:=stop]> y else y.

Fixpoint insert_sorted (x : Q) (l : list Q) : list Q :=
  match l with
  | [] => [x]
  | y :: l' => if Qle_bool x y then x :: l else y :: insert_sorted x l'
  end.

(** [np.sort(a)]. *)
Definition sort (a : list Q) : list Q := foldr insert_sorted [] a.

(** [np.percentile(a, q)] with the default method (linear interpolation
    between the two order statistics around the position
    [(n - 1) * q / 100]).  [q] outside [0, 100] raises [ValueError]; an
    empty array has no order statistic and raises [IndexError]. *)
Definition percentile (a : list Q) (q : Q) : result Q :=
  if Qltb q 0 || Qltb 100 q then Raise ValueError
  else
    let s := sort a in
    let n := length s in
    let virtual_index := inject_Z (Z.of_nat (n - 1)) * (q / 100) in
    let lo := Z.to_nat (Qfloor virtual_index) in
    let hi := Nat.min (lo + 1) (n - 1) in
    let gamma := virtual_index - inject_Z (Qfloor virtual_index) in
    x_lo <- getitem s lo ;;
    x_hi <- getitem s hi ;;
    Ok (x_lo + (x_hi - x_lo) * gamma).

(** The global generator: [draws] is the sequence of standard normal
    variates it delivers, [pos] the index of the next one. *)
Record rng : Type := { draws : nat -> Q; pos : nat }.

Definition advance (g : rng) (n : nat) : rng :=
  {| draws := draws g; pos := (pos g + n)%nat |}.

(** [np.random.normal(loc, scale, size)]: [loc + scale * z] for [size]
    successive standard normal variates [z].  A negative [scale] and a
    negative [size] raise [ValueError] before a variate is drawn. *)
Definition random_normal (loc scale : Q) (size : Z) (g : rng)
  : result (list Q * rng) :=
  if Qltb scale 0 then Raise ValueError
  else if (size <? 0)%Z then Raise ValueError
  else
    let n := Z.to_nat size in
    Ok ((fun i : nat => loc + scale * draws g (pos g + i)%nat) <$> seq 0 n,
        advance g n).

End np.

(** ** The engine *)

(** The attributes set by [__init__]. *)
Record CarbonCreditSimulation : Type := {
  num_simulations : Z;
  CARBON_STOCK : Q;
  ANNUAL_ABSORPTION : Q;
  DISCOUNT_RATE : Q;
  TIME_HORIZON : Z
}.

(** [__init__(num_simulations, discount_rate, time_horizon)]: stores its
    arguments and the two constants, and checks nothing. *)
Definition init (num_simulations : Z) (discount_rate : Q) (time_horizon : Z)
  : CarbonCreditSimulation :=
  {| num_simulations := num_simulations;
     CARBON_STOCK := 569;
     ANNUAL_ABSORPTION := 19 # 2;
     DISCOUNT_RATE := discount_rate;
     TIME_HORIZON := time_horizon |}.

(** [generate_price_scenarios(mean_price, std_dev)]. *)
Definition generate_price_scenarios (self : CarbonCreditSimulation)
    (mean_price std_dev : Q) (g : np.rng) : result (list Q * np.rng) :=
  np.random_normal mean_price std_dev (num_simulations self) g.

(** [calculate_npv(cash_flows, discount_rate=None)].  The model is exact
    wherever [1 + discount_rate] is not zero; at [discount_rate = -1] numpy
    divides by zero ([inf], and [0 * inf = nan]) where [Qinv 0] is [0], so
    every property below that depends on the discount factors excludes
    that rate. *)
Definition calculate_npv (self : CarbonCreditSimulation)
    (cash_flows : list Q) (discount_rate : option Q) : Q :=
  let discount_rate :=
    match discount_rate with
    | None => DISCOUNT_RATE self
    | Some r => r
    end in
  let years := np.arange (length cash_flows) in
  let discount_factors :=
    (fun y : nat => 1 / (1 + discount_rate) ^ Z.of_nat y) <$> years in
  np.sum (zip_with Qmult cash_flows discount_factors).

(** Lines 50-53: the body of the year loop, which adds to year [year] the
    cattle revenue of trial [i] when the year is even, its soy revenue when
    the year is odd. *)
Definition rotation_step (cattle_revenues soy_revenues : list Q) (i : nat)
    (cash_flows : list Q) (year : nat) : result (list Q) :=
  if Nat.even year then
    c <- np.getitem cattle_revenues i ;; np.iadd_item cash_flows year c
  else
    s <- np.getitem soy_revenues i ;; np.iadd_item cash_flows year s.

(** Lines 41-53: the body of the trial loop of [simulate_conventional_use]
    up to the valuation, which builds the cash flows of trial [i] from the
    two sampled arrays. *)
Definition trial_cash_flows (self : CarbonCreditSimulation) (timber_value : Q)
    (cattle_revenues soy_revenues : list Q) (i : nat) : result (list Q) :=
  cash_flows <- np.zeros (TIME_HORIZON self) ;;
  cash_flows <-
    (if Qltb 0 timber_value then np.setitem cash_flows 0 timber_value
     else Ok cash_flows) ;;
  for_each (range (TIME_HORIZON self)) cash_flows
    (rotation_step cattle_revenues soy_revenues i).

(** [simulate_conventional_use(timber_value, cattle_mean, cattle_std,
    soy_mean, soy_std)]. *)
Definition simulate_conventional_use (self : CarbonCreditSimulation)
    (timber_value cattle_mean cattle_std soy_mean soy_std : Q) (g : np.rng)
  : result (list Q * np.rng) :=
  cattle <- generate_price_scenarios self cattle_mean cattle_std g ;;
  soy <- generate_price_scenarios self soy_mean soy_std (snd cattle) ;;
  let cattle_revenues := fst cattle in
  let soy_revenues := fst soy in
  conventional_npvs <-
    for_each (range (num_simulations self)) []
      (fun conventional_npvs i =>
         cash_flows <-
           trial_cash_flows self timber_value cattle_revenues soy_revenues i ;;
         let npv := calculate_npv self cash_flows None in
         Ok (conventional_npvs ++ [npv])) ;;
  Ok (conventional_npvs, snd soy).

(** A row of the data frame of [find_equilibrium_carbon_prices]. *)
Record PricePoint : Type := {
  stock_price : Q;
  flow_price : Q;
  conservation_npv : Q
}.

(** Lines 71-78: the conservation cash flows of one grid cell. *)
Definition conservation_cash_flows (self : CarbonCreditSimulation)
    (stock_price flow_price : Q) : result (list Q) :=
  cash_flows <- np.zeros (TIME_HORIZON self) ;;
  cash_flows <- np.setitem cash_flows 0 (CARBON_STOCK self * stock_price) ;;
  let annual_credit_revenue := ANNUAL_ABSORPTION self * flow_price in
  Ok (np.set_slice_from cash_flows 1 annual_credit_revenue).

(** Lines 70-88: the body of the inner loop, one grid cell. *)
Definition grid_cell (self : CarbonCreditSimulation) (conventional_npvs : list Q)
    (equilibrium_prices : list PricePoint) (stock_price flow_price : Q)
  : result (list PricePoint) :=
  cash_flows <- conservation_cash_flows self stock_price flow_price ;;
  let npv := calculate_npv self cash_flows None in
  p75 <- np.percentile conventional_npvs 75 ;;
  if Qle_bool p75 npv then
    Ok (equilibrium_prices ++
        [{| stock_price := stock_price;
            flow_price := flow_price;
            conservation_npv := npv |}])
  else Ok equilibrium_prices.

Definition stock_credit_prices : list Q := np.linspace 0 1000 100.
Definition flow_credit_prices : list Q := np.linspace 0 1000 100.

(** [find_equilibrium_carbon_prices(conventional_npvs)]; the data frame it
    returns is the list of its rows. *)
Definition find_equilibrium_carbon_prices (self : CarbonCreditSimulation)
    (conventional_npvs : list Q) : result (list PricePoint) :=
  for_each stock_credit_prices []
    (fun equilibrium_prices stock_price =>
       for_each flow_credit_prices equilibrium_prices
         (fun equilibrium_prices flow_price =>
            grid_cell self conventional_npvs equilibrium_prices
              stock_price flow_price)).

Module pd.

(** [df[column]] on a frame built by [pd.DataFrame(rows)] from a list of
    dictionaries with the same keys.  Built from an empty list the frame has
    no column at all, and the access raises [KeyError]. *)
Definition column (df : list PricePoint) (col : PricePoint -> Q)
  : result (list Q) :=
  match df with
  | [] => Raise KeyError
  | _ :: _ => Ok (col <$> df)
  end.

(** [Series.min()] of a series that is not empty. *)
Definition min (s : list Q) : Q :=
  match s with
  | [] => 0
  | x :: s' => foldr Qmin x s'
  end.

(** [Series.median()] of a series that is not empty: the middle order
    statistic, or the mean of the two middle ones. *)
Definition median (s : list Q) : Q :=
  let sorted := np.sort s in
  let n := length sorted in
  if Nat.even n then
    (nth (n / 2 - 1) sorted 0 + nth (n / 2) sorted 0) / 2
  else nth (n / 2) sorted 0.

End pd.

(** The dictionary [results] of [run_simulation]. *)
Record Results : Type := {
  conventional_npv_mean : Q;
  conventional_npv_p75 : Q;
  min_stock_price : Q;
  min_flow_price : Q;
  recommended_stock_price : Q;
  recommended_flow_price : Q
}.

(** [run_simulation(timber_value, cattle_mean, cattle_std, soy_mean,
    soy_std)]. *)
Definition run_simulation (self : CarbonCreditSimulation)
    (timber_value cattle_mean cattle_std soy_mean soy_std : Q) (g : np.rng)
  : result (Results * list PricePoint * list Q * np.rng) :=
  sim <- simulate_conventional_use self timber_value cattle_mean cattle_std
           soy_mean soy_std g ;;
  let conventional_npvs := fst sim in
  equilibrium_prices <- find_equilibrium_carbon_prices self conventional_npvs ;;
  let mean := np.mean conventional_npvs in
  p75 <- np.percentile conventional_npvs 75 ;;
  stock1 <- pd.column equilibrium_prices stock_price ;;
  flow1 <- pd.column equilibrium_prices flow_price ;;
  stock2 <- pd.column equilibrium_prices stock_price ;;
  flow2 <- pd.column equilibrium_prices flow_price ;;
  let results :=
    {| conventional_npv_mean := mean;
       conventional_npv_p75 := p75;
       min_stock_price := pd.min stock1;
       min_flow_price := pd.min flow1;
       recommended_stock_price := pd.median stock2;
       recommended_flow_price := pd.median flow2 |} in
  Ok (results, equilibrium_prices, conventional_npvs, snd sim).

(** ** The formulations of the specification *)

(** The present value as the specification writes it: the sum over
    [t = 0 .. n-1] of [cash_flows[t] / (1 + discount_rate) ^ t]. *)
Definition present_value_spec (cash_flows : list Q) (discount_rate : Q) : Q :=
  foldr (fun (t : nat) acc => nth t cash_flows 0 / (1 + discount_rate) ^ Z.of_nat t + acc)
        0 (seq 0 (length cash_flows)).

(** The search as the specification decouples it: it receives the scalar
    [competitiveness_threshold] and knows nothing of the distribution. *)
Definition search_spec (self : CarbonCreditSimulation)
    (competitiveness_threshold : Q) : result (list PricePoint) :=
  for_each stock_credit_prices []
    (fun equilibrium_set stock_price =>
       for_each flow_credit_prices equilibrium_set
         (fun equilibrium_set flow_price =>
            cash_flows <- conservation_cash_flows self stock_price flow_price ;;
            let npv := calculate_npv self cash_flows None in
            if Qle_bool competitiveness_threshold npv then
              Ok (equilibrium_set ++
                  [{| stock_price := stock_price;
                      flow_price := flow_price;
                      conservation_npv := npv |}])
            else Ok equilibrium_set)).

(** The caller of the decoupled search computes the 75th percentile once,
    before the enumeration. *)
Definition find_equilibrium_decoupled (self : CarbonCreditSimulation)
    (conventional_npvs : list Q) : result (list PricePoint) :=
  competitiveness_threshold <- np.percentile conventional_npvs 75 ;;
  search_spec self competitiveness_threshold.

(** ** Closed forms used in the proofs *)

(** The conservation cash flows as the specification describes them: the
    stock payment in year 0, the flow payment in every later year. *)
Definition conservation_vector (self : CarbonCreditSimulation)
    (stock_price flow_price : Q) : list Q :=
  CARBON_STOCK self * stock_price
  :: replicate (Z.to_nat (TIME_HORIZON self) - 1) (ANNUAL_ABSORPTION self * flow_price).

(** What one grid cell contributes to the data frame under a threshold. *)
Definition retained (self : CarbonCreditSimulation) (threshold : Q)
    (stock_price flow_price : Q) : list PricePoint :=
  let npv := calculate_npv self (conservation_vector self stock_price flow_price) None in
  if Qle_bool threshold npv then
    [{| stock_price := stock_price; flow_price := flow_price;
        conservation_npv := npv |}]
  else [].

(** The revenue of a year under the rotation: cattle in even years, soy in
    odd years. *)
Definition rotation (cattle_revenue soy_revenue : Q) (year : nat) : Q :=
  if Nat.even year then cattle_revenue else soy_revenue.

(** What year [year] holds before the rotation loop: the timber value in
    year 0 when it is positive, zero elsewhere. *)
Definition timber_entry (timber_value : Q) (year : nat) : Q :=
  if (year =? 0)%nat && Qltb 0 timber_value then timber_value else 0.

(** The value of trial [i], when its cash flows can be built. *)
Definition trial_npv (self : CarbonCreditSimulation) (timber_value : Q)
    (cattle_revenues soy_revenues : list Q) (i : nat) : Q :=
  match trial_cash_flows self timber_value cattle_revenues soy_revenues i with
  | Ok cash_flows => calculate_npv self cash_flows None
  | Raise _ => 0
  end.

(** The samples [np.random.normal] delivers from a generator state. *)
Definition normal_samples (loc scale : Q) (n : nat) (g : np.rng) : list Q :=
  (fun i : nat => loc + scale * np.draws g (np.pos g + i)%nat) <$> seq 0 n.

(** Two generator states deliver the same next [n] variates. *)
Definition agree (g1 g2 : np.rng) (n : nat) : Prop :=
  forall k : nat, (k < n)%nat ->
    np.draws g1 (np.pos g1 + k)%nat = np.draws g2 (np.pos g2 + k)%nat.

(** The outcome of a run apart from the final generator state. *)
Definition result_map {A B : Type} (f : A -> B) (m : result A) : result B :=
  match m with
  | Ok a => Ok (f a)
  | Raise e => Raise e
  end.

(** ** Concrete inputs *)

(** The configuration of the specification's concrete scenario:
    one trial, discount rate 0.08, a horizon of two years. *)
Definition scenario : CarbonCreditSimulation := init 1 (2 # 25) 2.

(** A generator whose variates are all zero. *)
Definition zero_rng : np.rng := {| np.draws := fun _ => 0; np.pos := 0 |}.

(** Two generators that deliver the same first two variates and differ
    afterwards. *)
Definition rng_a : np.rng :=
  {| np.draws := fun k => if (k <? 2)%nat then 1 else 0; np.pos := 0 |}.
Definition rng_b : np.rng :=
  {| np.draws := fun k => if (k <? 2)%nat then 1 else 7; np.pos := 0 |}.

(** ** The annualisation of [main] *)

(** Line 272 of [main]: [annual_factor], the expression
    [r * (1 + r) ** h / ((1 + r) ** h - 1)] on the Python floats
    [sim.DISCOUNT_RATE] and the integer [sim.TIME_HORIZON].  A divisor that
    is zero raises [ZeroDivisionError], which is [None] here. *)
Definition annual_factor (self : CarbonCreditSimulation) : option Q :=
  let growth := (1 + DISCOUNT_RATE self) ^ TIME_HORIZON self in
  if Qeq_bool (growth - 1) 0 then None
  else Some (DISCOUNT_RATE self * growth / (growth - 1)).

(** Line 274: [annual_stock_price]. *)
Definition annual_stock_price (self : CarbonCreditSimulation)
    (results : Results) : option Q :=
  match annual_factor self with
  | Some factor => Some (recommended_stock_price results * factor)
  | None => None
  end.

(** Lines 405-406: [conventional_annual], on the [discount_rate] and
    [time_horizon] that [main] gave the engine; reached after line 272
    returned, that is, with a divisor that is not zero. *)
Definition conventional_annual (self : CarbonCreditSimulation)
    (results : Results) : Q :=
  conventional_npv_mean results * DISCOUNT_RATE self
  * (1 + DISCOUNT_RATE self) ^ TIME_HORIZON self
  / ((1 + DISCOUNT_RATE self) ^ TIME_HORIZON self - 1).

(** The present value of one unit paid at the end of each of the years
    [1 .. m]. *)
Definition annuity (r : Q) (m : nat) : Q :=
  foldr (fun (t : nat) acc => 1 / (1 + r) ^ Z.of_nat t + acc) 0 (seq 1 m).

(** ** Loops *)

Section ForEach.
Context {A S : Type}.
Implicit Types (xs : list A) (s : S) (body : S -> A -> result S).

Lemma for_each_ext xs s body body' :
  (forall s x, x ∈ xs -> body s x = body' s x) ->
  for_each xs s body = for_each xs s body'.
Proof.
  revert s. induction xs as [|x xs IH]; intros s Hb; simpl; [reflexivity|].
  rewrite <- (Hb s x) by constructor.
  destruct (body s x); simpl; [|reflexivity].
  apply IH. intros s' y Hy. apply Hb. now constructor.
Qed.

(** A body that raises on the first element makes the loop raise. *)
Lemma for_each_raise_head x xs s body e :
  body s x = Raise e -> for_each (x :: xs) s body = Raise e.
Proof. intros H. simpl. now rewrite H. Qed.
End ForEach.

(** A loop whose body appends to its accumulator collects, in order, what
    each element contributes. *)
Lemma for_each_collect {A B : Type} (xs : list A) (f : A -> list B)
    (body : list B -> A -> result (list B)) (acc : list B) :
  (forall acc x, x ∈ xs -> body acc x = Ok (acc ++ f x)) ->
  for_each xs acc body = Ok (acc ++ (xs ≫= f)).
Proof.
  revert acc. induction xs as [|x xs IH]; intros acc Hb; simpl.
  - now rewrite app_nil_r.
  - rewrite (Hb acc x) by constructor. simpl.
    rewrite IH by (intros acc' y Hy; apply Hb; now constructor).
    now rewrite <- app_assoc.
Qed.

(** ** Net present value *)

Section NPV.
Implicit Types (v : list Q) (f g : nat -> Q).

Lemma sum_seq_shift f k n :
  foldr (fun t acc => f t + acc) 0 (seq (S k) n) =
  foldr (fun t acc => f (S t) + acc) 0 (seq k n).
Proof.
  revert k. induction n as [|n IH]; intros k; simpl; [reflexivity|].
  now rewrite IH.
Qed.

Lemma sum_seq_ext f g k n :
  (forall t, f t == g t) ->
  foldr (fun t acc => f t + acc) 0 (seq k n) ==
  foldr (fun t acc => g t + acc) 0 (seq k n).
Proof.
  intros Hfg. revert k. induction n as [|n IH]; intros k; simpl.
  - reflexivity.
  - now rewrite IH, Hfg.
Qed.

(** The vectorised product-and-sum of numpy, read entry by entry. *)
Lemma sum_zip_factors v f :
  np.sum (zip_with Qmult v (f <$> seq 0 (length v))) =
  foldr (fun t acc => nth t v 0 * f t + acc) 0 (seq 0 (length v)).
Proof.
  revert f. induction v as [|x v IH]; intros f; [reflexivity|].
  cbn [length seq fmap list_fmap zip_with np.sum foldr nth].
  rewrite (sum_seq_shift (fun t => nth t (x :: v) 0 * f t)).
  rewrite <- fmap_S_seq, <- list_fmap_compose.
  change (foldr Qplus 0 ?l) with (np.sum l).
  rewrite (IH (f ∘ Datatypes.S)).
  reflexivity.
Qed.

Lemma sum_zip_ones v f k :
  (forall t, f t == 1) ->
  np.sum (zip_with Qmult v (f <$> seq k (length v))) == np.sum v.
Proof.
  intros Hf. revert k. induction v as [|x v IH]; intros k; [reflexivity|].
  cbn [length seq fmap list_fmap zip_with np.sum foldr].
  change (foldr Qplus 0 ?l) with (np.sum l).
  rewrite IH, Hf. ring.
Qed.

Lemma calculate_npv_spec self v r :
  calculate_npv self v (Some r) == present_value_spec v r.
Proof.
  unfold calculate_npv, present_value_spec, np.arange.
  rewrite sum_zip_factors. apply sum_seq_ext.
  intros t. unfold Qdiv. ring.
Qed.

Lemma calculate_npv_default self v :
  calculate_npv self v None = calculate_npv self v (Some (DISCOUNT_RATE self)).
Proof. reflexivity. Qed.

Lemma calculate_npv_undiscounted self v :
  calculate_npv self v (Some 0) == np.sum v.
Proof.
  unfold calculate_npv, np.arange. apply sum_zip_ones.
  intros t. assert (H : 1 + 0 == 1) by ring.
  rewrite H, Qpower_1. reflexivity.
Qed.
End NPV.

Section Monotone.
Implicit Types (v w : list Q) (f : nat -> Q).

Lemma sum_zip_mono f v w :
  (forall t, 0 <= f t) -> Forall2 Qle v w ->
  forall k,
    np.sum (zip_with Qmult v (f <$> seq k (length v))) <=
    np.sum (zip_with Qmult w (f <$> seq k (length w))).
Proof.
  intros Hf. induction 1 as [|x y v w Hxy _ IH]; intros k.
  - apply Qle_refl.
  - cbn [length seq fmap list_fmap zip_with np.sum foldr].
    apply Qplus_le_compat; [|apply IH].
    apply Qmult_le_compat_r; [exact Hxy | apply Hf].
Qed.

Lemma discount_factor_nonneg r (y : nat) :
  0 <= 1 + r -> 0 <= 1 / (1 + r) ^ Z.of_nat y.
Proof.
  intros Hr. unfold Qdiv. rewrite Qmult_1_l.
  apply Qinv_le_0_compat, Qpower_0_le, Hr.
Qed.

Lemma calculate_npv_mono self v w :
  0 <= 1 + DISCOUNT_RATE self -> Forall2 Qle v w ->
  calculate_npv self v None <= calculate_npv self w None.
Proof.
  intros Hr Hvw. unfold calculate_npv, np.arange.
  apply sum_zip_mono; [|exact Hvw].
  intros t. now apply discount_factor_nonneg.
Qed.
End Monotone.

(** ** The conservation cash flows of a grid cell *)

Section Conservation.
Variable self : CarbonCreditSimulation.

Lemma zeros_ok (n : Z) : (0 <= n)%Z -> np.zeros n = Ok (replicate (Z.to_nat n) 0).
Proof.
  intros Hn. unfold np.zeros.
  destruct (Z.ltb_spec n 0); [lia | reflexivity].
Qed.

Lemma conservation_cash_flows_ok sp fp :
  (1 <= TIME_HORIZON self)%Z ->
  conservation_cash_flows self sp fp = Ok (conservation_vector self sp fp).
Proof.
  intros Hh. unfold conservation_cash_flows, conservation_vector.
  rewrite zeros_ok by lia.
  destruct (Z.to_nat (TIME_HORIZON self)) as [|m] eqn:Hm; [lia|].
  cbn. now rewrite length_replicate, !Nat.sub_0_r.
Qed.

Lemma conservation_cash_flows_raise sp fp :
  (TIME_HORIZON self <= 0)%Z ->
  exists e, conservation_cash_flows self sp fp = Raise e.
Proof.
  intros Hh. unfold conservation_cash_flows, np.zeros.
  destruct (Z.ltb_spec (TIME_HORIZON self) 0) as [Hlt|Hge].
  - now exists ValueError.
  - replace (TIME_HORIZON self) with 0%Z by lia. now exists IndexError.
Qed.

Lemma conservation_vector_length sp fp :
  (1 <= TIME_HORIZON self)%Z ->
  length (conservation_vector self sp fp) = Z.to_nat (TIME_HORIZON self).
Proof.
  intros Hh. unfold conservation_vector. cbn [length].
  rewrite length_replicate. lia.
Qed.

Lemma conservation_vector_later sp fp (y : nat) :
  (1 <= y < Z.to_nat (TIME_HORIZON self))%nat ->
  conservation_vector self sp fp !! y = Some (ANNUAL_ABSORPTION self * fp).
Proof.
  intros Hy. unfold conservation_vector.
  destruct y as [|y]; [lia|]. cbn [lookup list_lookup].
  apply lookup_replicate_2. lia.
Qed.

Lemma conservation_vector_mono sp sp' fp fp' :
  0 <= CARBON_STOCK self -> 0 <= ANNUAL_ABSORPTION self ->
  sp <= sp' -> fp <= fp' ->
  Forall2 Qle (conservation_vector self sp fp) (conservation_vector self sp' fp').
Proof.
  intros HC HA Hsp Hfp. unfold conservation_vector. constructor.
  - rewrite !(Qmult_comm (CARBON_STOCK self)). now apply Qmult_le_compat_r.
  - apply Forall2_replicate.
    rewrite !(Qmult_comm (ANNUAL_ABSORPTION self)). now apply Qmult_le_compat_r.
Qed.
End Conservation.

(** ** The grid search *)

Section Search.
Variable self : CarbonCreditSimulation.

Lemma stock_credit_prices_cons :
  exists x xs, stock_credit_prices = x :: xs.
Proof. now eexists _, _. Qed.

Lemma flow_credit_prices_cons :
  exists x xs, flow_credit_prices = x :: xs.
Proof. now eexists _, _. Qed.

Lemma grid_cell_ok npvs thr acc sp fp :
  (1 <= TIME_HORIZON self)%Z ->
  np.percentile npvs 75 = Ok thr ->
  grid_cell self npvs acc sp fp = Ok (acc ++ retained self thr sp fp).
Proof.
  intros Hh Hp. unfold grid_cell, retained.
  rewrite conservation_cash_flows_ok by exact Hh. cbn [bind].
  rewrite Hp. cbn [bind].
  destruct (Qle_bool thr _); [reflexivity | now rewrite app_nil_r].
Qed.

(** With the threshold in hand the cell of the code and the cell of the
    decoupled search are one function. *)
Lemma grid_cell_decoupled npvs thr acc sp fp :
  np.percentile npvs 75 = Ok thr ->
  grid_cell self npvs acc sp fp =
  (cash_flows <- conservation_cash_flows self sp fp ;;
   let npv := calculate_npv self cash_flows None in
   if Qle_bool thr npv then
     Ok (acc ++ [{| stock_price := sp; flow_price := fp; conservation_npv := npv |}])
   else Ok acc).
Proof.
  intros Hp. unfold grid_cell.
  destruct (conservation_cash_flows self sp fp); cbn [bind]; [|reflexivity].
  now rewrite Hp.
Qed.

Lemma grid_cell_raise npvs acc sp fp :
  (TIME_HORIZON self <= 0)%Z \/ is_ok (np.percentile npvs 75) = false ->
  exists e, grid_cell self npvs acc sp fp = Raise e.
Proof.
  intros H. unfold grid_cell.
  destruct (conservation_cash_flows self sp fp) as [cf|e] eqn:Hcf; cbn [bind];
    [|now exists e].
  destruct (np.percentile npvs 75) as [thr|e] eqn:Hp; cbn [bind];
    [|now exists e].
  destruct H as [Hh|Hfalse]; [|discriminate].
  destruct (conservation_cash_flows_raise self sp fp Hh) as [e He]. congruence.
Qed.

Lemma find_equilibrium_carbon_prices_ok npvs thr :
  (1 <= TIME_HORIZON self)%Z ->
  np.percentile npvs 75 = Ok thr ->
  find_equilibrium_carbon_prices self npvs =
  Ok (stock_credit_prices ≫= fun sp => flow_credit_prices ≫= retained self thr sp).
Proof.
  intros Hh Hp. unfold find_equilibrium_carbon_prices.
  rewrite (for_each_collect _
    (fun sp => flow_credit_prices ≫= retained self thr sp)); [reflexivity|].
  intros acc sp _. apply for_each_collect.
  intros acc' fp _. now apply grid_cell_ok.
Qed.

Lemma find_equilibrium_carbon_prices_raise npvs :
  (TIME_HORIZON self <= 0)%Z \/ is_ok (np.percentile npvs 75) = false ->
  exists e, find_equilibrium_carbon_prices self npvs = Raise e.
Proof.
  intros H. unfold find_equilibrium_carbon_prices.
  destruct stock_credit_prices_cons as (sp & sps & ->).
  destruct flow_credit_prices_cons as (fp & fps & ->).
  destruct (grid_cell_raise npvs [] sp fp H) as [e He].
  exists e. apply for_each_raise_head. now apply for_each_raise_head.
Qed.

Lemma find_equilibrium_decoupled_eq npvs thr :
  np.percentile npvs 75 = Ok thr ->
  find_equilibrium_carbon_prices self npvs = find_equilibrium_decoupled self npvs.
Proof.
  intros Hp. unfold find_equilibrium_decoupled. rewrite Hp. cbn [bind].
  unfold find_equilibrium_carbon_prices, search_spec.
  apply for_each_ext. intros acc sp _.
  apply for_each_ext. intros acc' fp _.
  now apply grid_cell_decoupled.
Qed.

Lemma elem_of_retained thr sp fp (p : PricePoint) :
  p ∈ retained self thr sp fp <->
  p = {| stock_price := sp; flow_price := fp;
         conservation_npv :=
           calculate_npv self (conservation_vector self sp fp) None |} /\
  thr <= calculate_npv self (conservation_vector self sp fp) None.
Proof.
  unfold retained.
  destruct (Qle_bool thr _) eqn:Hle.
  - rewrite list_elem_of_singleton. apply Qle_bool_iff in Hle. tauto.
  - rewrite elem_of_nil. split; [tauto|]. intros [_ H].
    apply Qle_bool_iff in H. congruence.
Qed.

Lemma elem_of_grid thr (p : PricePoint) :
  p ∈ (stock_credit_prices ≫= fun sp => flow_credit_prices ≫= retained self thr sp) <->
  stock_price p ∈ stock_credit_prices /\
  flow_price p ∈ flow_credit_prices /\
  conservation_npv p =
    calculate_npv self
      (conservation_vector self (stock_price p) (flow_price p)) None /\
  thr <= conservation_npv p.
Proof.
  rewrite list_elem_of_bind. split.
  - intros (sp & Hin & Hsp). apply list_elem_of_bind in Hin as (fp & Hin & Hfp).
    apply elem_of_retained in Hin as [-> Hle]. now cbn.
  - intros (Hsp & Hfp & Hnpv & Hle). exists (stock_price p). split; [|exact Hsp].
    apply list_elem_of_bind. exists (flow_price p). split; [|exact Hfp].
    apply elem_of_retained. rewrite <- Hnpv. split; [|exact Hle].
    now destruct p.
Qed.
End Search.

(** ** The conventional cash flows of a trial *)

Section Trial.
Variables (cattle_revenues soy_revenues : list Q) (i : nat) (c s : Q).
Hypothesis Hcattle : cattle_revenues !! i = Some c.
Hypothesis Hsoy : soy_revenues !! i = Some s.

Lemma iadd_item_ok (a : list Q) (y : nat) (v x : Q) :
  a !! y = Some v -> np.iadd_item a y x = Ok (<[y:=v + x]> a).
Proof.
  intros Hv. unfold np.iadd_item, np.getitem, np.setitem. now rewrite Hv.
Qed.

Lemma rotation_body (a : list Q) (y : nat) (v : Q) :
  a !! y = Some v ->
  rotation_step cattle_revenues soy_revenues i a y =
  Ok (<[y:=v + rotation c s y]> a).
Proof.
  intros Hv. unfold rotation_step, rotation, np.getitem.
  rewrite Hcattle, Hsoy. destruct (Nat.even y); cbn [bind]; now apply iadd_item_ok.
Qed.

(** The invariant of the rotation loop: the years already visited hold
    their revenue on top of what they held, the others are untouched. *)
Lemma rotation_loop (m k : nat) (a : list Q) :
  (k + m <= length a)%nat ->
  exists a',
    for_each (seq k m) a (rotation_step cattle_revenues soy_revenues i) = Ok a' /\
    length a' = length a /\
    forall y, a' !! y =
      if bool_decide (k <= y < k + m)%nat
      then (fun x => x + rotation c s y) <$> a !! y
      else a !! y.
Proof.
  revert k a. induction m as [|m IH]; intros k a Hlen.
  - exists a. repeat split. intros y. rewrite bool_decide_eq_false_2 by lia. reflexivity.
  - destruct (lookup_lt_is_Some_2 a k) as [v Hv]; [lia|].
    cbn [seq for_each]. rewrite (rotation_body a k v Hv). cbn [bind].
    destruct (IH (Datatypes.S k) (<[k:=v + rotation c s k]> a)) as (a' & Hrun & Hl & Hy).
    { rewrite length_insert. lia. }
    exists a'. split; [exact Hrun|]. split; [now rewrite Hl, length_insert|].
    intros y. rewrite Hy.
    destruct (decide (y = k)) as [->|Hne].
    + rewrite bool_decide_eq_false_2, bool_decide_eq_true_2 by lia.
      rewrite list_lookup_insert_eq by lia. now rewrite Hv.
    + rewrite list_lookup_insert_ne by congruence.
      destruct (decide (Datatypes.S k <= y < Datatypes.S k + m)%nat).
      * now rewrite !bool_decide_eq_true_2 by lia.
      * now rewrite !bool_decide_eq_false_2 by lia.
Qed.

Variables (self : CarbonCreditSimulation) (timber_value : Q).

Lemma trial_cash_flows_ok :
  (1 <= TIME_HORIZON self)%Z ->
  exists cf,
    trial_cash_flows self timber_value cattle_revenues soy_revenues i = Ok cf /\
    length cf = Z.to_nat (TIME_HORIZON self) /\
    forall y, (y < Z.to_nat (TIME_HORIZON self))%nat ->
      cf !! y = Some (timber_entry timber_value y + rotation c s y).
Proof.
  intros Hh. unfold trial_cash_flows. rewrite zeros_ok by lia. cbn [bind].
  set (h := Z.to_nat (TIME_HORIZON self)).
  assert (Hbase : exists a,
    (if Qltb 0 timber_value then np.setitem (replicate h 0) 0 timber_value
     else Ok (replicate h 0)) = Ok a /\ length a = h /\
    forall y, (y < h)%nat -> a !! y = Some (timber_entry timber_value y)).
  { unfold timber_entry. destruct (Qltb 0 timber_value).
    - assert (Hh' : h = Datatypes.S (h - 1)) by (subst h; lia).
      rewrite Hh'. eexists. split; [reflexivity|]. split.
      + cbn. now rewrite length_replicate.
      + intros [|y] Hy; [reflexivity|]. cbn. apply lookup_replicate_2. lia.
    - exists (replicate h 0). split; [reflexivity|].
      split; [apply length_replicate|].
      intros y Hy. rewrite andb_false_r. now apply lookup_replicate_2. }
  destruct Hbase as (a & -> & Hla & Ha). cbn [bind].
  destruct (rotation_loop h 0 a) as (cf & Hrun & Hl & Hy); [lia|].
  exists cf. unfold range. fold h. split; [exact Hrun|]. split; [lia|].
  intros y Hlt. rewrite Hy, bool_decide_eq_true_2 by lia.
  now rewrite (Ha y Hlt).
Qed.
End Trial.

(** ** The random source *)

Section Sampling.
Implicit Types (g : np.rng) (loc scale : Q) (size : Z).

Lemma random_normal_ok loc scale size g :
  Qltb scale 0 = false -> (0 <= size)%Z ->
  np.random_normal loc scale size g =
  Ok (normal_samples loc scale (Z.to_nat size) g, np.advance g (Z.to_nat size)).
Proof.
  intros Hs Hn. unfold np.random_normal. rewrite Hs.
  destruct (Z.ltb_spec size 0); [lia | reflexivity].
Qed.

Lemma random_normal_raise loc scale size g :
  Qltb scale 0 = true \/ (size < 0)%Z ->
  np.random_normal loc scale size g = Raise ValueError.
Proof.
  intros H. unfold np.random_normal.
  destruct (Qltb scale 0); [reflexivity|].
  destruct H as [H|H]; [discriminate|].
  destruct (Z.ltb_spec size 0); [reflexivity | lia].
Qed.

Lemma normal_samples_agree loc scale n g1 g2 :
  agree g1 g2 n -> normal_samples loc scale n g1 = normal_samples loc scale n g2.
Proof.
  intros Hag. unfold normal_samples. apply list_fmap_ext.
  intros k i Hi. apply lookup_seq in Hi as [-> Hi]. cbn.
  now rewrite (Hag k Hi).
Qed.

Lemma agree_le g1 g2 n m : (m <= n)%nat -> agree g1 g2 n -> agree g1 g2 m.
Proof. intros Hle Hag k Hk. apply Hag. lia. Qed.

Lemma agree_advance g1 g2 n m :
  agree g1 g2 (n + m) -> agree (np.advance g1 n) (np.advance g2 n) m.
Proof.
  intros Hag k Hk. cbn. rewrite <- !Nat.add_assoc. apply Hag. lia.
Qed.

Lemma normal_samples_lookup loc scale n g (i : nat) :
  (i < n)%nat ->
  normal_samples loc scale n g !! i =
  Some (loc + scale * np.draws g (np.pos g + i)%nat).
Proof.
  intros Hi. unfold normal_samples.
  now rewrite list_lookup_fmap, lookup_seq_lt.
Qed.
End Sampling.

(** ** The conventional valuation *)

Lemma for_each_collect1 {A B : Type} (xs : list A) (f : A -> B)
    (body : list B -> A -> result (list B)) (acc : list B) :
  (forall acc x, x ∈ xs -> body acc x = Ok (acc ++ [f x])) ->
  for_each xs acc body = Ok (acc ++ (f <$> xs)).
Proof.
  revert acc. induction xs as [|x xs IH]; intros acc Hb; cbn.
  - now rewrite app_nil_r.
  - rewrite (Hb acc x) by constructor. cbn.
    rewrite IH by (intros acc' y Hy; apply Hb; now constructor).
    now rewrite <- app_assoc.
Qed.

Section Conventional.
Variable self : CarbonCreditSimulation.
Variables timber_value cattle_mean cattle_std soy_mean soy_std : Q.

(** The run on the two sample arrays, once they are drawn. *)
Lemma trials_ok (cattle_revenues soy_revenues : list Q) (n : nat) :
  (1 <= TIME_HORIZON self)%Z ->
  (n <= length cattle_revenues)%nat -> (n <= length soy_revenues)%nat ->
  for_each (seq 0 n) []
    (fun conventional_npvs i =>
       cash_flows <-
         trial_cash_flows self timber_value cattle_revenues soy_revenues i ;;
       let npv := calculate_npv self cash_flows None in
       Ok (conventional_npvs ++ [npv])) =
  Ok (trial_npv self timber_value cattle_revenues soy_revenues <$> seq 0 n).
Proof.
  intros Hh Hc Hs.
  rewrite (for_each_collect1 _
    (trial_npv self timber_value cattle_revenues soy_revenues)); [reflexivity|].
  intros acc i Hi. apply elem_of_seq in Hi.
  destruct (lookup_lt_is_Some_2 cattle_revenues i) as [c Hci]; [lia|].
  destruct (lookup_lt_is_Some_2 soy_revenues i) as [s Hsi]; [lia|].
  destruct (trial_cash_flows_ok _ _ i c s Hci Hsi self timber_value Hh)
    as (cf & Hcf & _).
  unfold trial_npv. now rewrite Hcf.
Qed.

Lemma normal_samples_length loc scale n g :
  length (normal_samples loc scale n g) = n.
Proof. unfold normal_samples. now rewrite length_fmap, length_seq. Qed.

(** A valid configuration never raises: the distribution has one value
    per trial, the value of that trial's cash flows. *)
Lemma simulate_conventional_use_ok g :
  (0 <= num_simulations self)%Z -> (1 <= TIME_HORIZON self)%Z ->
  Qltb cattle_std 0 = false -> Qltb soy_std 0 = false ->
  let n := Z.to_nat (num_simulations self) in
  let cattle_revenues := normal_samples cattle_mean cattle_std n g in
  let soy_revenues := normal_samples soy_mean soy_std n (np.advance g n) in
  simulate_conventional_use self timber_value cattle_mean cattle_std
    soy_mean soy_std g =
  Ok (trial_npv self timber_value cattle_revenues soy_revenues <$> seq 0 n,
      np.advance (np.advance g n) n).
Proof.
  intros Hn Hh Hcs Hss n cattle_revenues soy_revenues.
  unfold simulate_conventional_use, generate_price_scenarios.
  rewrite random_normal_ok by assumption. cbn [bind fst snd].
  rewrite random_normal_ok by assumption. cbn [bind fst snd].
  unfold range. fold n. fold cattle_revenues. fold soy_revenues.
  rewrite trials_ok; [reflexivity | exact Hh | |];
    unfold cattle_revenues, soy_revenues; now rewrite normal_samples_length.
Qed.

(** The distribution depends on the generator through the variates of
    the two sampling calls only. *)
Lemma simulate_conventional_use_agree g1 g2 :
  agree g1 g2 (2 * Z.to_nat (num_simulations self)) ->
  (exists e,
     simulate_conventional_use self timber_value cattle_mean cattle_std
       soy_mean soy_std g1 = Raise e /\
     simulate_conventional_use self timber_value cattle_mean cattle_std
       soy_mean soy_std g2 = Raise e) \/
  (exists npvs g1' g2',
     simulate_conventional_use self timber_value cattle_mean cattle_std
       soy_mean soy_std g1 = Ok (npvs, g1') /\
     simulate_conventional_use self timber_value cattle_mean cattle_std
       soy_mean soy_std g2 = Ok (npvs, g2')).
Proof.
  intros Hag. unfold simulate_conventional_use, generate_price_scenarios.
  set (n := Z.to_nat (num_simulations self)) in *.
  destruct (Qltb cattle_std 0) eqn:Hcs.
  { left. exists ValueError. rewrite !random_normal_raise by now left. now cbn. }
  destruct (Z.ltb_spec (num_simulations self) 0) as [Hneg|Hpos].
  { left. exists ValueError. rewrite !random_normal_raise by now right. now cbn. }
  rewrite !(random_normal_ok cattle_mean) by assumption. cbn [bind fst snd]. fold n.
  destruct (Qltb soy_std 0) eqn:Hss.
  { left. exists ValueError. rewrite !random_normal_raise by now left. now cbn. }
  rewrite !(random_normal_ok soy_mean) by assumption. cbn [bind fst snd]. fold n.
  rewrite (normal_samples_agree cattle_mean cattle_std n g1 g2)
    by (apply (agree_le g1 g2 (2 * n)); [lia | exact Hag]).
  rewrite (normal_samples_agree soy_mean soy_std n (np.advance g1 n) (np.advance g2 n))
    by (apply agree_advance, (agree_le g1 g2 (2 * n)); [lia | exact Hag]).
  match goal with |- context [bind ?m _] => destruct m as [npvs|e] end; cbn [bind].
  - right. now eexists _, _, _.
  - left. now exists e.
Qed.
End Conventional.

(** ** The percentile *)

Section Percentile.
Implicit Types (a : list Q).

Lemma Qltb_lt (x y : Q) : Qltb x y = true <-> x < y.
Proof.
  unfold Qltb. rewrite negb_true_iff, <- not_true_iff_false, Qle_bool_iff.
  split; [apply Qnot_le_lt | apply Qlt_not_le].
Qed.

Lemma insert_sorted_length (x : Q) a :
  length (np.insert_sorted x a) = Datatypes.S (length a).
Proof.
  induction a as [|y a IH]; cbn; [reflexivity|].
  destruct (Qle_bool x y); cbn; [reflexivity | now rewrite IH].
Qed.

Lemma sort_length a : length (np.sort a) = length a.
Proof.
  induction a as [|x a IH]; cbn; [reflexivity|].
  change (foldr np.insert_sorted [] a) with (np.sort a).
  now rewrite insert_sorted_length, IH.
Qed.

Lemma percentile_empty : np.percentile [] 75 = Raise IndexError.
Proof. reflexivity. Qed.

(** The position [(n - 1) * 75 / 100] lies between the first and the last
    order statistic. *)
Lemma virtual_index_bounds (n : nat) :
  (0 <= Qfloor (inject_Z (Z.of_nat (n - 1)) * (75 / 100)) <= Z.of_nat (n - 1))%Z.
Proof.
  set (m := Z.of_nat (n - 1)).
  assert (Hm : 0 <= inject_Z m).
  { change 0 with (inject_Z 0). rewrite <- Zle_Qle. subst m. lia. }
  split.
  - change 0%Z with (Qfloor 0). apply Qfloor_resp_le.
    apply Qmult_le_0_compat; [exact Hm | discriminate].
  - rewrite <- (Qfloor_Z m) at 2. apply Qfloor_resp_le.
    rewrite <- (Qmult_1_r (inject_Z m)) at 2.
    rewrite !(Qmult_comm (inject_Z m)).
    apply Qmult_le_compat_r; [discriminate | exact Hm].
Qed.

(** A distribution with at least one value has a 75th percentile. *)
Lemma percentile_ok a : a <> [] -> exists thr, np.percentile a 75 = Ok thr.
Proof.
  intros Ha. unfold np.percentile.
  change (Qltb 75 0 || Qltb 100 75) with false. cbv zeta.
  rewrite sort_length.
  assert (Hn : (0 < length a)%nat) by (destruct a; [congruence | cbn; lia]).
  pose proof (virtual_index_bounds (length a)) as Hb.
  set (lo := Z.to_nat (Qfloor _)).
  assert (Hlo : (lo < length a)%nat) by (subst lo; lia).
  unfold np.getitem.
  destruct (lookup_lt_is_Some_2 (np.sort a) lo) as [x_lo ->];
    [rewrite sort_length; lia|].
  destruct (lookup_lt_is_Some_2 (np.sort a) (Nat.min (lo + 1) (length a - 1)))
    as [x_hi ->]; [rewrite sort_length; lia|].
  cbn [bind]. now eexists.
Qed.

Lemma percentile_raise a : is_ok (np.percentile a 75) = false -> a = [].
Proof.
  intros H. destruct a as [|x a]; [reflexivity|].
  destruct (percentile_ok (x :: a)) as [thr Hthr]; [discriminate|].
  now rewrite Hthr in H.
Qed.
End Percentile.

(** ** The full run *)

Section Run.
Variable self : CarbonCreditSimulation.
Variables timber_value cattle_mean cattle_std soy_mean soy_std : Q.

(** What a returned distribution tells about the configuration. *)
Lemma simulate_conventional_use_inv g npvs g' :
  simulate_conventional_use self timber_value cattle_mean cattle_std
    soy_mean soy_std g = Ok (npvs, g') ->
  Qltb cattle_std 0 = false /\ Qltb soy_std 0 = false /\
  (0 <= num_simulations self)%Z /\
  (num_simulations self = 0%Z -> npvs = []).
Proof.
  unfold simulate_conventional_use, generate_price_scenarios. intros H.
  destruct (Qltb cattle_std 0) eqn:Hcs.
  { rewrite random_normal_raise in H by now left. discriminate. }
  destruct (Z.ltb_spec (num_simulations self) 0) as [Hneg|Hpos].
  { rewrite random_normal_raise in H by now right. discriminate. }
  rewrite random_normal_ok in H by assumption. cbn [bind fst snd] in H.
  destruct (Qltb soy_std 0) eqn:Hss.
  { rewrite random_normal_raise in H by now left. discriminate. }
  rewrite random_normal_ok in H by assumption. cbn [bind fst snd] in H.
  repeat split; [exact Hpos|].
  intros H0. unfold range in H. rewrite H0 in H.
  change (Z.to_nat 0) with 0%nat in H. cbn in H. congruence.
Qed.


Lemma run_simulation_agree g1 g2 :
  agree g1 g2 (2 * Z.to_nat (num_simulations self)) ->
  result_map fst
    (run_simulation self timber_value cattle_mean cattle_std soy_mean soy_std g1) =
  result_map fst
    (run_simulation self timber_value cattle_mean cattle_std soy_mean soy_std g2).
Proof.
  intros Hag. unfold run_simulation.
  destruct (simulate_conventional_use_agree self timber_value cattle_mean
              cattle_std soy_mean soy_std g1 g2 Hag)
    as [(e & -> & ->)|(npvs & g1' & g2' & -> & ->)]; [reflexivity|].
  cbn [bind fst snd].
  repeat match goal with
         | |- context [bind ?m _] => destruct m; cbn [bind]
         end; reflexivity.
Qed.
End Run.

(** ** The claims of the specification *)

(** C2: for every cash-flow vector and every discount rate in [0, 1),
    [calculate_npv] is the sum over the years [t] of
    [v[t] / (1 + r) ^ t]; at rate 0 it is the plain sum of the entries. *)
Theorem C2_calculate_npv_discounted_sum
    (self : CarbonCreditSimulation) (v : list Q) (r : Q) :
  0 <= r -> r < 1 ->
  calculate_npv self v (Some r) == present_value_spec v r /\
  calculate_npv self v (Some 0) == np.sum v.
Proof.
  intros _ _. split.
  - apply calculate_npv_spec.
  - apply calculate_npv_undiscounted.
Qed.

Lemma C2_witness :
  calculate_npv scenario [100; 50] (Some (1 # 10)) ==
    present_value_spec [100; 50] (1 # 10) /\
  calculate_npv scenario [100; 50] (Some 0) == np.sum [100; 50].
Proof.
  apply (C2_calculate_npv_discounted_sum scenario [100; 50] (1 # 10)).
  - unfold Qle. simpl. lia.
  - unfold Qlt. simpl. lia.
Defined.

(** C5: with non-negative carbon stock and annual absorption and a
    discount rate in (0, 1), raising the stock price alone or the flow
    price alone never lowers the conservation value of a grid cell. *)
Theorem C5_conservation_npv_monotone
    (self : CarbonCreditSimulation) (sp sp' fp fp' : Q) :
  0 <= CARBON_STOCK self -> 0 <= ANNUAL_ABSORPTION self ->
  0 < DISCOUNT_RATE self -> DISCOUNT_RATE self < 1 ->
  (1 <= TIME_HORIZON self)%Z ->
  sp <= sp' -> fp <= fp' ->
  exists cf cf_stock cf_flow,
    conservation_cash_flows self sp fp = Ok cf /\
    conservation_cash_flows self sp' fp = Ok cf_stock /\
    conservation_cash_flows self sp fp' = Ok cf_flow /\
    calculate_npv self cf None <= calculate_npv self cf_stock None /\
    calculate_npv self cf None <= calculate_npv self cf_flow None.
Proof.
  intros HC HA Hr0 Hr1 Hh Hsp Hfp.
  assert (Hr : 0 <= 1 + DISCOUNT_RATE self) by lra.
  exists (conservation_vector self sp fp), (conservation_vector self sp' fp),
         (conservation_vector self sp fp').
  rewrite !conservation_cash_flows_ok by exact Hh.
  repeat split.
  - apply calculate_npv_mono; [exact Hr|].
    apply conservation_vector_mono; auto using Qle_refl.
  - apply calculate_npv_mono; [exact Hr|].
    apply conservation_vector_mono; auto using Qle_refl.
Qed.

Lemma C5_witness :
  exists cf cf_stock cf_flow,
    conservation_cash_flows scenario 10 10 = Ok cf /\
    conservation_cash_flows scenario 20 10 = Ok cf_stock /\
    conservation_cash_flows scenario 10 30 = Ok cf_flow /\
    calculate_npv scenario cf None <= calculate_npv scenario cf_stock None /\
    calculate_npv scenario cf None <= calculate_npv scenario cf_flow None.
Proof.
  apply (C5_conservation_npv_monotone scenario 10 20 10 30).
  - unfold Qle. simpl. lia.
  - unfold Qle. simpl. lia.
  - unfold Qlt. simpl. lia.
  - unfold Qlt. simpl. lia.
  - simpl. lia.
  - unfold Qle. simpl. lia.
  - unfold Qle. simpl. lia.
Defined.

(** C1: for a discount rate in (0, 1) and a horizon of at least one year,
    the cash flows of a grid cell have one entry per year, the stock
    payment [carbon_stock * stock_price] in year 0 and the flow payment
    [annual_absorption * flow_price] in every later year; and the search
    returns exactly the grid points whose value reaches the 75th percentile
    of the conventional distribution, each with its prices and value. *)
Theorem C1_equilibrium_retention
    (self : CarbonCreditSimulation) (conventional_npvs : list Q) :
  0 < DISCOUNT_RATE self -> DISCOUNT_RATE self < 1 ->
  (1 <= TIME_HORIZON self)%Z ->
  conventional_npvs <> [] ->
  (forall sp fp, exists cf,
      conservation_cash_flows self sp fp = Ok cf /\
      length cf = Z.to_nat (TIME_HORIZON self) /\
      cf !! 0%nat = Some (CARBON_STOCK self * sp) /\
      forall y, (1 <= y < Z.to_nat (TIME_HORIZON self))%nat ->
        cf !! y = Some (ANNUAL_ABSORPTION self * fp)) /\
  exists threshold equilibrium_set,
    np.percentile conventional_npvs 75 = Ok threshold /\
    find_equilibrium_carbon_prices self conventional_npvs = Ok equilibrium_set /\
    forall p : PricePoint,
      p ∈ equilibrium_set <->
      stock_price p ∈ stock_credit_prices /\
      flow_price p ∈ flow_credit_prices /\
      (exists cf,
         conservation_cash_flows self (stock_price p) (flow_price p) = Ok cf /\
         conservation_npv p = calculate_npv self cf None) /\
      threshold <= conservation_npv p.
Proof.
  intros _ _ Hh Hne. split.
  - intros sp fp. exists (conservation_vector self sp fp).
    split; [now apply conservation_cash_flows_ok|].
    split; [now apply conservation_vector_length|].
    split; [reflexivity|].
    intros y Hy. now apply conservation_vector_later.
  - destruct (percentile_ok conventional_npvs Hne) as [thr Hthr].
    exists thr. eexists. split; [exact Hthr|].
    split; [exact (find_equilibrium_carbon_prices_ok self _ thr Hh Hthr)|].
    intros p. rewrite elem_of_grid.
    pose proof (conservation_cash_flows_ok self (stock_price p) (flow_price p) Hh)
      as Hcell.
    split.
    + intros (Hs & Hf & Hnpv & Hle).
      split; [exact Hs|]. split; [exact Hf|]. split; [|exact Hle].
      eexists. split; [exact Hcell | exact Hnpv].
    + intros (Hs & Hf & (cf & Hcf & Hnpv) & Hle).
      split; [exact Hs|]. split; [exact Hf|]. split; [|exact Hle].
      congruence.
Qed.

Lemma C1_witness :
  (forall sp fp, exists cf,
      conservation_cash_flows scenario sp fp = Ok cf /\
      length cf = 2%nat /\
      cf !! 0%nat = Some (569 * sp) /\
      forall y, (1 <= y < 2)%nat -> cf !! y = Some ((19 # 2) * fp)) /\
  exists threshold equilibrium_set,
    np.percentile [5000; 7000] 75 = Ok threshold /\
    find_equilibrium_carbon_prices scenario [5000; 7000] = Ok equilibrium_set /\
    forall p : PricePoint,
      p ∈ equilibrium_set <->
      stock_price p ∈ stock_credit_prices /\
      flow_price p ∈ flow_credit_prices /\
      (exists cf,
         conservation_cash_flows scenario (stock_price p) (flow_price p) = Ok cf /\
         conservation_npv p = calculate_npv scenario cf None) /\
      threshold <= conservation_npv p.
Proof.
  apply (C1_equilibrium_retention scenario [5000; 7000]).
  - unfold Qlt. simpl. lia.
  - unfold Qlt. simpl. lia.
  - simpl. lia.
  - discriminate.
Defined.

(** C3: in a trial with a non-negative timber value whose sampled
    revenues are [c] (cattle) and [s] (soy), the conventional cash flows
    have one entry per year of the horizon; year 0 holds the timber value
    plus [c]; every later even year holds [c] and every odd year [s]: the
    one sampled pair serves all the years of the trial. *)
Theorem C3_conventional_cash_flows
    (self : CarbonCreditSimulation) (timber_value : Q)
    (cattle_revenues soy_revenues : list Q) (i : nat) (c s : Q) :
  (1 <= TIME_HORIZON self)%Z ->
  0 <= timber_value ->
  cattle_revenues !! i = Some c ->
  soy_revenues !! i = Some s ->
  exists cf,
    trial_cash_flows self timber_value cattle_revenues soy_revenues i = Ok cf /\
    length cf = Z.to_nat (TIME_HORIZON self) /\
    (exists x, cf !! 0%nat = Some x /\ x == timber_value + c) /\
    forall y, (0 < y < Z.to_nat (TIME_HORIZON self))%nat ->
      exists x, cf !! y = Some x /\ x == if Nat.even y then c else s.
Proof.
  intros Hh Ht Hc Hs.
  destruct (trial_cash_flows_ok _ _ i c s Hc Hs self timber_value Hh)
    as (cf & Hcf & Hlen & Hy).
  exists cf. split; [exact Hcf|]. split; [exact Hlen|]. split.
  - eexists. split; [apply Hy; lia|].
    unfold timber_entry, rotation. cbn [Nat.eqb Nat.even andb].
    destruct (Qltb 0 timber_value) eqn:Hpos; [reflexivity|].
    assert (Hle : timber_value <= 0).
    { apply Qnot_lt_le. intros Hlt. apply Qltb_lt in Hlt. congruence. }
    assert (H0 : timber_value == 0) by (apply Qle_antisym; assumption).
    now rewrite H0.
  - intros y Hyr. eexists. split; [apply Hy; lia|].
    unfold timber_entry, rotation.
    destruct y as [|y]; [lia|]. cbn [Nat.eqb andb]. apply Qplus_0_l.
Qed.

Lemma C3_witness :
  exists cf,
    trial_cash_flows (init 1 0 3) 5000 [800] [6100] 0 = Ok cf /\
    length cf = 3%nat /\
    (exists x, cf !! 0%nat = Some x /\ x == 5000 + 800) /\
    forall y, (0 < y < 3)%nat ->
      exists x, cf !! y = Some x /\ x == if Nat.even y then 800 else 6100.
Proof.
  apply (C3_conventional_cash_flows (init 1 0 3) 5000 [800] [6100] 0 800 6100).
  - simpl. lia.
  - unfold Qle. simpl. lia.
  - reflexivity.
  - reflexivity.
Defined.

(** C9: with cattle revenue 800 and soy revenue 6100, both of standard
    deviation 0, no timber, a horizon of two years and discount rate 0, the
    conventional simulation does not raise, and the value of every trial
    is 6900. *)
Theorem C9_degenerate_distributions (trial_count : Z) (g : np.rng) :
  (0 <= trial_count)%Z ->
  exists npvs g',
    simulate_conventional_use (init trial_count 0 2) 0 800 0 6100 0 g =
      Ok (npvs, g') /\
    length npvs = Z.to_nat trial_count /\
    Forall (fun npv => npv == 6900) npvs.
Proof.
  intros Hn. eexists _, _. split.
  - apply simulate_conventional_use_ok; [exact Hn | cbn; lia | reflexivity..].
  - cbn [num_simulations init]. set (n := Z.to_nat trial_count).
    split; [now rewrite length_fmap, length_seq|].
    apply Forall_fmap, Forall_forall. intros i Hi. apply elem_of_seq in Hi. cbn.
    unfold trial_npv.
    destruct (trial_cash_flows_ok
                (normal_samples 800 0 n g)
                (normal_samples 6100 0 n (np.advance g n)) i _ _
                (normal_samples_lookup 800 0 n g i ltac:(lia))
                (normal_samples_lookup 6100 0 n (np.advance g n) i ltac:(lia))
                (init trial_count 0 2) 0 ltac:(cbn; lia))
      as (cf & -> & Hlen & Hy).
    pose proof (Hy 0%nat ltac:(cbn; lia)) as H0.
    pose proof (Hy 1%nat ltac:(cbn; lia)) as H1.
    destruct cf as [|x0 [|x1 [|x2 cf]]]; try discriminate Hlen.
    cbn in H0, H1. injection H0 as ->. injection H1 as ->.
    change (calculate_npv (init trial_count 0 2) ?v None)
      with (calculate_npv (init trial_count 0 2) v (Some 0)).
    rewrite calculate_npv_undiscounted.
    unfold np.sum, timber_entry, rotation.
    change (Qltb 0 0) with false. cbn [foldr Nat.eqb Nat.even negb andb].
    ring.
Qed.

Lemma C9_witness :
  exists npvs g',
    simulate_conventional_use (init 3 0 2) 0 800 0 6100 0 rng_a = Ok (npvs, g') /\
    length npvs = 3%nat /\
    Forall (fun npv => npv == 6900) npvs.
Proof.
  apply (C9_degenerate_distributions 3 rng_a). lia.
Defined.

(** C7: two runs of one configuration on generators that deliver the same
    variates to the two sampling calls produce the same conventional
    distribution and the same result, equilibrium set and distribution of
    the full run (or raise the same exception). *)
Theorem C7_deterministic_given_the_random_stream
    (self : CarbonCreditSimulation)
    (timber_value cattle_mean cattle_std soy_mean soy_std : Q)
    (g1 g2 : np.rng) :
  agree g1 g2 (2 * Z.to_nat (num_simulations self)) ->
  result_map fst
    (simulate_conventional_use self timber_value cattle_mean cattle_std
       soy_mean soy_std g1) =
  result_map fst
    (simulate_conventional_use self timber_value cattle_mean cattle_std
       soy_mean soy_std g2) /\
  result_map fst
    (run_simulation self timber_value cattle_mean cattle_std soy_mean soy_std g1) =
  result_map fst
    (run_simulation self timber_value cattle_mean cattle_std soy_mean soy_std g2).
Proof.
  intros Hag. split.
  - destruct (simulate_conventional_use_agree self timber_value cattle_mean
                cattle_std soy_mean soy_std g1 g2 Hag)
      as [(e & -> & ->)|(npvs & g1' & g2' & -> & ->)]; reflexivity.
  - now apply run_simulation_agree.
Qed.

Lemma C7_witness :
  result_map fst (simulate_conventional_use scenario 0 800 200 6100 300 rng_a) =
  result_map fst (simulate_conventional_use scenario 0 800 200 6100 300 rng_b) /\
  result_map fst (run_simulation scenario 0 800 200 6100 300 rng_a) =
  result_map fst (run_simulation scenario 0 800 200 6100 300 rng_b).
Proof.
  apply (C7_deterministic_given_the_random_stream scenario 0 800 200 6100 300
           rng_a rng_b).
  intros k Hk. simpl in Hk.
  destruct k as [|[|k]]; [reflexivity | reflexivity | lia].
Defined.

(** C10: for every conventional distribution the search of the code, which
    takes the 75th percentile anew in every grid cell, and the decoupled
    search, which receives the percentile computed once beforehand, return
    the same equilibrium set; neither returns one when the other does not. *)
Theorem C10_search_equals_decoupled_search
    (self : CarbonCreditSimulation) (conventional_npvs : list Q) :
  to_option (find_equilibrium_carbon_prices self conventional_npvs) =
  to_option (find_equilibrium_decoupled self conventional_npvs).
Proof.
  destruct (np.percentile conventional_npvs 75) as [thr|e] eqn:Hp.
  - now rewrite (find_equilibrium_decoupled_eq self conventional_npvs thr Hp).
  - destruct (find_equilibrium_carbon_prices_raise self conventional_npvs)
      as [e' ->]; [right; now rewrite Hp|].
    unfold find_equilibrium_decoupled. now rewrite Hp.
Qed.

(** The exceptions agree as well, unless the horizon is negative and the
    distribution empty: the code then fails on the allocation of the cash
    flows ([ValueError]), the decoupled caller on the percentile
    ([IndexError]). *)
Lemma find_equilibrium_decoupled_exact
    (self : CarbonCreditSimulation) (conventional_npvs : list Q) :
  (0 <= TIME_HORIZON self)%Z \/ conventional_npvs <> [] ->
  find_equilibrium_carbon_prices self conventional_npvs =
  find_equilibrium_decoupled self conventional_npvs.
Proof.
  intros Hvalid.
  destruct (np.percentile conventional_npvs 75) as [thr|e] eqn:Hp.
  - now apply (find_equilibrium_decoupled_eq self conventional_npvs thr).
  - assert (Hnil : conventional_npvs = [])
      by (apply percentile_raise; now rewrite Hp).
    subst conventional_npvs. destruct Hvalid as [Hh|Hne]; [|congruence].
    unfold find_equilibrium_decoupled. rewrite percentile_empty. cbn [bind].
    unfold find_equilibrium_carbon_prices.
    destruct stock_credit_prices_cons as (sp & sps & ->).
    destruct flow_credit_prices_cons as (fp & fps & ->).
    apply for_each_raise_head, for_each_raise_head.
    unfold grid_cell.
    destruct (Z.eq_dec (TIME_HORIZON self) 0%Z) as [H0|Hpos].
    + unfold conservation_cash_flows. now rewrite H0.
    + rewrite conservation_cash_flows_ok by lia. reflexivity.
Qed.

(** C4: the claim describes what the summary should do; the code does
    not.  With a timber value no grid point can match, the search returns
    the empty data frame and the summary raises [KeyError] on its first
    column access. *)
Lemma C4_empty_equilibrium_set_raises :
  exists npvs g',
    simulate_conventional_use scenario 1000000000 800 0 6100 0 zero_rng =
      Ok (npvs, g') /\
    find_equilibrium_carbon_prices scenario npvs = Ok [] /\
    run_simulation scenario 1000000000 800 0 6100 0 zero_rng = Raise KeyError.
Proof.
  eexists _, _. split; [vm_compute; reflexivity|].
  split; vm_compute; reflexivity.
Qed.

Lemma grid_prices_differ_from_10 (x : Q) :
  x ∈ stock_credit_prices -> ~ x == 10.
Proof.
  intros Hx. apply list_elem_of_In in Hx.
  assert (H : forallb (fun y => negb (Qeq_bool y 10)) stock_credit_prices = true)
    by (vm_compute; reflexivity).
  rewrite forallb_forall in H. specialize (H x Hx).
  apply negb_true_iff in H. now apply Qeq_bool_neq.
Qed.

(** C8, as the claim has it, fails: under threshold 0 the search returns
    an equilibrium set, and no point of it has the stock price 10 or the
    flow price 10, the prices of the grid being the multiples of 1000/99. *)
Lemma C8_point_10_10_not_in_equilibrium_set :
  exists threshold equilibrium_set,
    np.percentile [0] 75 = Ok threshold /\
    threshold == 0 /\
    find_equilibrium_carbon_prices scenario [0] = Ok equilibrium_set /\
    forall p : PricePoint,
      p ∈ equilibrium_set -> ~ stock_price p == 10 /\ ~ flow_price p == 10.
Proof.
  eexists _, _. split; [vm_compute; reflexivity|].
  split; [reflexivity|].
  split; [apply find_equilibrium_carbon_prices_ok; [simpl; lia | vm_compute; reflexivity]|].
  intros p Hp. apply elem_of_grid in Hp as (Hs & Hf & _).
  split; now apply grid_prices_differ_from_10.
Qed.

(** C8, as the code has it: with discount rate 0.08, a horizon of two
    years, carbon stock 569, annual absorption 9.5 and threshold 0, the
    body of the grid loop run at the prices (10, 10) builds the cash flows
    [5690, 95], values them at 5690 + 95/1.08, finds the value at least
    the threshold and appends the point to the data frame. *)
Theorem C8_cell_at_10_10_is_appended (equilibrium_prices : list PricePoint) :
  exists cf npv threshold,
    conservation_cash_flows scenario 10 10 = Ok cf /\
    Forall2 Qeq cf [5690; 95] /\
    npv = calculate_npv scenario cf None /\
    npv == 5690 + 95 / (108 # 100) /\
    np.percentile [0] 75 = Ok threshold /\
    threshold == 0 /\
    threshold <= npv /\
    grid_cell scenario [0] equilibrium_prices 10 10 =
    Ok (equilibrium_prices ++
        [{| stock_price := 10; flow_price := 10; conservation_npv := npv |}]).
Proof.
  exists (conservation_vector scenario 10 10),
         (calculate_npv scenario (conservation_vector scenario 10 10) None),
         (0 # 100).
  split; [reflexivity|].
  split; [repeat constructor; vm_compute; reflexivity|].
  split; [reflexivity|].
  split; [vm_compute; reflexivity|].
  split; [vm_compute; reflexivity|].
  split; [reflexivity|].
  split; [vm_compute; discriminate|].
  rewrite (grid_cell_ok scenario [0] (0 # 100) equilibrium_prices 10 10);
    [|simpl; lia|vm_compute; reflexivity].
  unfold retained. cbv zeta.
  match goal with
  | |- context [Qle_bool ?t ?v] =>
      replace (Qle_bool t v) with true by (vm_compute; reflexivity)
  end.
  reflexivity.
Qed.

(** * Further properties of the engine *)

(** ** The algebra of the present value *)

Section NPVAlgebra.
Implicit Types (v w : list Q) (f : nat -> Q).




Lemma sum_zip_replicate f (b : Q) (m k : nat) :
  np.sum (zip_with Qmult (replicate m b) (f <$> seq k m)) ==
  b * foldr (fun t acc => f t + acc) 0 (seq k m).
Proof.
  revert k. induction m as [|m IH]; intros k.
  - cbn. ring.
  - cbn [replicate seq fmap list_fmap zip_with np.sum foldr].
    change (foldr Qplus 0 ?l) with (np.sum l). rewrite IH. ring.
Qed.

Lemma discount_factor_0 (r : Q) : 1 / (1 + r) ^ Z.of_nat 0 == 1.
Proof. reflexivity. Qed.

(** The value of a first payment followed by a constant payment. *)
Lemma calculate_npv_level self (a b : Q) (m : nat) (r : Q) :
  calculate_npv self (a :: replicate m b) (Some r) == a + b * annuity r m.
Proof.
  unfold calculate_npv, np.arange, annuity.
  cbn [length seq fmap list_fmap zip_with np.sum foldr].
  change (foldr Qplus 0 ?l) with (np.sum l).
  rewrite length_replicate, sum_zip_replicate, discount_factor_0. ring.
Qed.

Lemma annuity_S (r : Q) (m : nat) :
  annuity r (Datatypes.S m) ==
  annuity r m + 1 / (1 + r) ^ Z.of_nat (Datatypes.S m).
Proof.
  unfold annuity. rewrite seq_S, foldr_app. cbn [foldr Nat.add].
  generalize (1 / (1 + r) ^ Z.of_nat (Datatypes.S m)). intros q.
  generalize 1%nat. induction m as [|m IH]; intros k.
  - cbn. ring.
  - cbn [seq foldr]. rewrite IH. ring.
Qed.

(** The geometric sum behind the annuity. *)
Lemma annuity_closed (r : Q) (m : nat) :
  ~ 1 + r == 0 -> r * annuity r m == 1 - 1 / (1 + r) ^ Z.of_nat m.
Proof.
  intros Hr. induction m as [|m IH].
  - rewrite discount_factor_0. unfold annuity. cbn [seq foldr]. ring.
  - rewrite annuity_S, Qmult_plus_distr_r, IH.
    rewrite Nat2Z.inj_succ, <- Z.add_1_r, Qpower_plus by exact Hr.
    rewrite Qpower_1_r.
    assert (Hp : ~ (1 + r) ^ Z.of_nat m == 0) by now apply Qpower_not_0.
    field. split; assumption.
Qed.
End NPVAlgebra.







(** ** The shape of the equilibrium set *)

Section EquilibriumSet.
Variable self : CarbonCreditSimulation.

(** A search that returns had a horizon of at least one year and a
    percentile to compare with. *)
Lemma find_equilibrium_carbon_prices_inv (npvs : list Q) (eq : list PricePoint) :
  find_equilibrium_carbon_prices self npvs = Ok eq ->
  (1 <= TIME_HORIZON self)%Z /\
  exists thr,
    np.percentile npvs 75 = Ok thr /\
    eq = (stock_credit_prices ≫= fun sp => flow_credit_prices ≫= retained self thr sp).
Proof.
  intros Hfind.
  destruct (Z.le_gt_cases 1 (TIME_HORIZON self)) as [Hh|Hh].
  - split; [exact Hh|].
    destruct (np.percentile npvs 75) as [thr|e] eqn:Hp.
    + exists thr. split; [reflexivity|].
      rewrite (find_equilibrium_carbon_prices_ok self npvs thr Hh Hp) in Hfind.
      congruence.
    + destruct (find_equilibrium_carbon_prices_raise self npvs) as [e' He'];
        [right; now rewrite Hp | congruence].
  - destruct (find_equilibrium_carbon_prices_raise self npvs) as [e' He'];
      [left; lia | congruence].
Qed.

Lemma grid_prices_range (x : Q) :
  x ∈ stock_credit_prices -> 0 <= x /\ x <= 1000.
Proof.
  intros Hx. apply list_elem_of_In in Hx.
  assert (H : forallb (fun y => Qle_bool 0 y && Qle_bool y 1000)
                stock_credit_prices = true) by (vm_compute; reflexivity).
  rewrite forallb_forall in H. specialize (H x Hx).
  apply andb_true_iff in H as [H0 H1].
  now rewrite !Qle_bool_iff in *.
Qed.



Lemma bind_length_le {A B : Type} (f : A -> list B) (xs : list A) (k : nat) :
  (forall x, (length (f x) <= k)%nat) ->
  (length (xs ≫= f) <= length xs * k)%nat.
Proof.
  intros Hf. induction xs as [|x xs IH]; [cbn; lia|].
  rewrite bind_cons, length_app. specialize (Hf x). cbn [length]. lia.
Qed.

Lemma retained_length thr sp fp : (length (retained self thr sp fp) <= 1)%nat.
Proof. unfold retained. destruct (Qle_bool _ _); cbn; lia. Qed.

End EquilibriumSet.



Lemma equilibrium_set_price_range
    (self : CarbonCreditSimulation) (conventional_npvs : list Q)
    (equilibrium_set : list PricePoint) (p : PricePoint) :
  find_equilibrium_carbon_prices self conventional_npvs = Ok equilibrium_set ->
  p ∈ equilibrium_set ->
  (0 <= stock_price p /\ stock_price p <= 1000) /\
  (0 <= flow_price p /\ flow_price p <= 1000).
Proof.
  intros Hfind Hp.
  apply find_equilibrium_carbon_prices_inv in Hfind as (Hh & thr & Hthr & ->).
  apply elem_of_grid in Hp as (Hs & Hf & _).
  split; now apply grid_prices_range.
Qed.

(** X5: the equilibrium set has at most 100 * 100 points, and the two
    prices of each of its points lie between 0 and 1000. *)
Theorem equilibrium_set_bounds
    (self : CarbonCreditSimulation) (conventional_npvs : list Q)
    (equilibrium_set : list PricePoint) :
  find_equilibrium_carbon_prices self conventional_npvs = Ok equilibrium_set ->
  (length equilibrium_set <= 100 * 100)%nat /\
  forall p, p ∈ equilibrium_set ->
    (0 <= stock_price p /\ stock_price p <= 1000) /\
    (0 <= flow_price p /\ flow_price p <= 1000).
Proof.
  intros Hfind. split.
  - apply find_equilibrium_carbon_prices_inv in Hfind as (Hh & thr & Hthr & ->).
    change (100 * 100)%nat with (length stock_credit_prices * 100)%nat.
    apply bind_length_le. intros sp.
    change 100%nat with (length flow_credit_prices * 1)%nat.
    apply bind_length_le. intros fp. apply retained_length.
  - intros p Hp.
    exact (equilibrium_set_price_range self conventional_npvs equilibrium_set p
             Hfind Hp).
Qed.

Lemma equilibrium_set_bounds_witness :
  exists equilibrium_set,
    find_equilibrium_carbon_prices scenario [577000] = Ok equilibrium_set /\
    (length equilibrium_set <= 100 * 100)%nat /\
    forall p, p ∈ equilibrium_set ->
      (0 <= stock_price p /\ stock_price p <= 1000) /\
      (0 <= flow_price p /\ flow_price p <= 1000).
Proof.
  eexists. split; [vm_compute; reflexivity|].
  eapply (equilibrium_set_bounds scenario [577000]).
  vm_compute. reflexivity.
Defined.

(** ** When the run returns *)

Section RunOutcome.
Variable self : CarbonCreditSimulation.
Variables timber_value cattle_mean cattle_std soy_mean soy_std : Q.

(** What a returned run tells: its three outputs come from one
    distribution, and the frame is not empty. *)
Lemma run_simulation_inv (g : np.rng) (res : Results)
    (eq : list PricePoint) (npvs : list Q) (g' : np.rng) :
  run_simulation self timber_value cattle_mean cattle_std soy_mean soy_std g =
    Ok (res, eq, npvs, g') ->
  simulate_conventional_use self timber_value cattle_mean cattle_std
    soy_mean soy_std g = Ok (npvs, g') /\
  find_equilibrium_carbon_prices self npvs = Ok eq /\
  eq <> [] /\
  np.percentile npvs 75 = Ok (conventional_npv_p75 res) /\
  conventional_npv_mean res = np.mean npvs /\
  min_stock_price res = pd.min (stock_price <$> eq) /\
  min_flow_price res = pd.min (flow_price <$> eq) /\
  recommended_stock_price res = pd.median (stock_price <$> eq) /\
  recommended_flow_price res = pd.median (flow_price <$> eq).
Proof.
  unfold run_simulation. intros H.
  destruct (simulate_conventional_use self timber_value cattle_mean cattle_std
              soy_mean soy_std g) as [[npvs0 g0]|e]; [|discriminate].
  cbn [bind fst snd] in H.
  destruct (find_equilibrium_carbon_prices self npvs0) as [eq0|e] eqn:Hfind;
    [|discriminate].
  cbn [bind] in H.
  destruct (np.percentile npvs0 75) as [p75|e] eqn:Hp; [|discriminate].
  cbn [bind] in H.
  destruct eq0 as [|p0 eq0]; [discriminate|].
  cbn [pd.column bind] in H. injection H as <- <- <- <-.
  repeat split; [exact Hfind | discriminate | exact Hp].
Qed.

End RunOutcome.





(** ** Order statistics of the results *)

Section OrderStatistics.
Implicit Types (s a : list Q).

Lemma insert_sorted_perm (x : Q) s : np.insert_sorted x s ≡ₚ x :: s.
Proof.
  induction s as [|y s IH]; cbn; [reflexivity|].
  destruct (Qle_bool x y); [reflexivity|].
  rewrite IH. apply Permutation_swap.
Qed.

Lemma sort_perm s : np.sort s ≡ₚ s.
Proof.
  induction s as [|x s IH]; cbn; [reflexivity|].
  change (foldr np.insert_sorted [] s) with (np.sort s).
  now rewrite insert_sorted_perm, IH.
Qed.

(** An order statistic of a series is one of its values. *)
Lemma nth_sort_elem_of s (i : nat) :
  (i < length s)%nat -> nth i (np.sort s) 0 ∈ s.
Proof.
  intros Hi. apply (elem_of_Permutation_proper _ _ _ (sort_perm s)).
  apply list_elem_of_In, nth_In. now rewrite sort_length.
Qed.

Lemma min_spec (x : Q) s :
  (foldr Qmin x s <= x /\ forall y, y ∈ s -> foldr Qmin x s <= y) /\
  (foldr Qmin x s = x \/ foldr Qmin x s ∈ s).
Proof.
  induction s as [|y s [[IHx IHs] IHin]]; cbn [foldr].
  - split; [split; [apply Qle_refl | intros y Hy; now apply elem_of_nil in Hy]|now left].
  - split; [split|].
    + apply (Qle_trans _ (foldr Qmin x s)); [apply Q.le_min_r | exact IHx].
    + intros z Hz. apply elem_of_cons in Hz as [->|Hz].
      * apply Q.le_min_l.
      * apply (Qle_trans _ (foldr Qmin x s)); [apply Q.le_min_r | now apply IHs].
    + assert (Hc : forall a b : Q, Qmin a b = a \/ Qmin a b = b).
      { intros a b. unfold Qmin, GenericMinMax.gmin. destruct (a ?= b); auto. }
      destruct (Hc y (foldr Qmin x s)) as [-> | ->].
      * right. constructor.
      * destruct IHin as [Heq|Hin]; [now left | right; now constructor].
Qed.

(** The minimum of a series is one of its values and a lower bound. *)
Lemma pd_min_spec (x : Q) s :
  pd.min (x :: s) ∈ x :: s /\ forall y, y ∈ x :: s -> pd.min (x :: s) <= y.
Proof.
  destruct (min_spec x s) as [[Hx Hs] Hin]. cbn [pd.min]. split.
  - destruct Hin as [->|Hin]; [constructor | now constructor].
  - intros y Hy. apply elem_of_cons in Hy as [->|Hy]; [exact Hx | now apply Hs].
Qed.

(** The median of a series lies between any two bounds of its values. *)
Lemma pd_median_between s (lo hi : Q) :
  s <> [] -> (forall x, x ∈ s -> lo <= x /\ x <= hi) ->
  lo <= pd.median s /\ pd.median s <= hi.
Proof.
  intros Hne Hb. unfold pd.median. rewrite sort_length.
  assert (Hn : (0 < length s)%nat) by (destruct s; [congruence | cbn; lia]).
  assert (Hmid : (length s / 2 < length s)%nat) by (apply Nat.div_lt; lia).
  destruct (Nat.even (length s)).
  - destruct (Hb _ (nth_sort_elem_of s (length s / 2 - 1) ltac:(lia))) as [Hl1 Hh1].
    destruct (Hb _ (nth_sort_elem_of s (length s / 2) Hmid)) as [Hl2 Hh2].
    split; apply Qle_shift_div_l || apply Qle_shift_div_r; try reflexivity; lra.
  - exact (Hb _ (nth_sort_elem_of s (length s / 2) Hmid)).
Qed.

(** The interpolated percentile lies between any two bounds of the values. *)
Lemma percentile_between a (thr lo hi : Q) :
  np.percentile a 75 = Ok thr ->
  (forall x, x ∈ a -> lo <= x /\ x <= hi) ->
  lo <= thr /\ thr <= hi.
Proof.
  unfold np.percentile. change (Qltb 75 0 || Qltb 100 75) with false. cbv zeta.
  rewrite sort_length. unfold np.getitem.
  set (vi := inject_Z (Z.of_nat (length a - 1)) * (75 / 100)).
  set (gamma := vi - inject_Z (Qfloor vi)).
  destruct (np.sort a !! Z.to_nat (Qfloor vi)) as [x_lo|] eqn:Hlo; [|discriminate].
  destruct (np.sort a !! _) as [x_hi|] eqn:Hhi in |- *; [|discriminate].
  cbn [bind]. intros [= <-] Hb.
  assert (Hin : forall i x, np.sort a !! i = Some x -> x ∈ a).
  { intros i x Hx. apply (elem_of_Permutation_proper _ _ _ (sort_perm a)).
    now apply (list_elem_of_lookup_2 _ i). }
  destruct (Hb _ (Hin _ _ Hlo)) as [Hl1 Hh1].
  destruct (Hb _ (Hin _ _ Hhi)) as [Hl2 Hh2].
  pose proof (Qfloor_le vi) as Hg0.
  pose proof (Qlt_floor vi) as Hg1.
  rewrite inject_Z_plus in Hg1. change (inject_Z 1) with 1 in Hg1.
  assert (H0 : 0 <= gamma) by (subst gamma; lra).
  assert (H1 : gamma <= 1) by (subst gamma; lra).
  assert (Hconv : x_lo + (x_hi - x_lo) * gamma ==
                  (1 - gamma) * x_lo + gamma * x_hi) by ring.
  assert (Hmix : forall u, (1 - gamma) * u + gamma * u == u) by (intros u; ring).
  split.
  - rewrite Hconv, <- (Hmix lo). apply Qplus_le_compat.
    + rewrite !(Qmult_comm (1 - gamma)). apply Qmult_le_compat_r; lra.
    + rewrite !(Qmult_comm gamma). apply Qmult_le_compat_r; lra.
  - rewrite Hconv, <- (Hmix hi). apply Qplus_le_compat.
    + rewrite !(Qmult_comm (1 - gamma)). apply Qmult_le_compat_r; lra.
    + rewrite !(Qmult_comm gamma). apply Qmult_le_compat_r; lra.
Qed.

Lemma sum_between a (lo hi : Q) :
  (forall x, x ∈ a -> lo <= x /\ x <= hi) ->
  inject_Z (Z.of_nat (length a)) * lo <= np.sum a /\
  np.sum a <= inject_Z (Z.of_nat (length a)) * hi.
Proof.
  induction a as [|x a IH]; intros Hb.
  - cbn [length np.sum foldr]. change (inject_Z (Z.of_nat 0)) with 0. lra.
  - destruct (Hb x ltac:(constructor)) as [Hl Hh].
    destruct IH as [IHl IHh]; [intros y Hy; apply Hb; now constructor|].
    cbn [length np.sum foldr]. change (foldr Qplus 0 a) with (np.sum a).
    rewrite Nat2Z.inj_succ, <- Z.add_1_r, inject_Z_plus.
    change (inject_Z 1) with 1. lra.
Qed.

(** The mean lies between any two bounds of the values. *)
Lemma mean_between a (lo hi : Q) :
  a <> [] -> (forall x, x ∈ a -> lo <= x /\ x <= hi) ->
  lo <= np.mean a /\ np.mean a <= hi.
Proof.
  intros Hne Hb. destruct (sum_between a lo hi Hb) as [Hl Hh].
  assert (Hn : 0 < inject_Z (Z.of_nat (length a))).
  { change 0 with (inject_Z 0). rewrite <- Zlt_Qlt.
    destruct a; [congruence | cbn [length]; lia]. }
  unfold np.mean. split.
  - apply Qle_shift_div_l; [exact Hn|]. lra.
  - apply Qle_shift_div_r; [exact Hn|]. lra.
Qed.
End OrderStatistics.

(** X8: in the results of a run that returns, the minimum stock price is
    the stock price of a returned point and a lower bound of the stock
    prices of all returned points, the recommended (median) stock price is
    at least the minimum, and both lie between 0 and 1000; the same holds
    of the flow prices. *)
Theorem results_prices_ordered
    (self : CarbonCreditSimulation)
    (timber_value cattle_mean cattle_std soy_mean soy_std : Q) (g g' : np.rng)
    (results : Results) (equilibrium_prices : list PricePoint)
    (conventional_npvs : list Q) :
  run_simulation self timber_value cattle_mean cattle_std soy_mean soy_std g =
    Ok (results, equilibrium_prices, conventional_npvs, g') ->
  ((exists p, p ∈ equilibrium_prices /\ stock_price p = min_stock_price results) /\
   (forall p, p ∈ equilibrium_prices -> min_stock_price results <= stock_price p) /\
   0 <= min_stock_price results /\
   min_stock_price results <= recommended_stock_price results /\
   recommended_stock_price results <= 1000) /\
  ((exists p, p ∈ equilibrium_prices /\ flow_price p = min_flow_price results) /\
   (forall p, p ∈ equilibrium_prices -> min_flow_price results <= flow_price p) /\
   0 <= min_flow_price results /\
   min_flow_price results <= recommended_flow_price results /\
   recommended_flow_price results <= 1000).
Proof.
  intros Hrun.
  apply run_simulation_inv
    in Hrun as (_ & Hfind & Hne & _ & _ & Hms & Hmf & Hrs & Hrf).
  pose proof (fun p =>
    equilibrium_set_price_range self conventional_npvs equilibrium_prices p Hfind)
    as Hrange.
  assert (Hcol : forall (col : PricePoint -> Q),
    (forall p, p ∈ equilibrium_prices -> 0 <= col p /\ col p <= 1000) ->
    (exists p, p ∈ equilibrium_prices /\ col p = pd.min (col <$> equilibrium_prices)) /\
    (forall p, p ∈ equilibrium_prices -> pd.min (col <$> equilibrium_prices) <= col p) /\
    0 <= pd.min (col <$> equilibrium_prices) /\
    pd.min (col <$> equilibrium_prices) <= pd.median (col <$> equilibrium_prices) /\
    pd.median (col <$> equilibrium_prices) <= 1000).
  { intros col Hcolrange.
    destruct equilibrium_prices as [|p0 eq]; [congruence|].
    destruct (pd_min_spec (col p0) (col <$> eq)) as [Hin Hle].
    change (col p0 :: (col <$> eq)) with (col <$> p0 :: eq) in Hin, Hle.
    apply list_elem_of_fmap in Hin as (pm & Hpm & Hpmin).
    assert (Hlow : forall p, p ∈ p0 :: eq -> pd.min (col <$> p0 :: eq) <= col p).
    { intros p Hp. apply Hle. now apply list_elem_of_fmap_2. }
    destruct (pd_median_between (col <$> p0 :: eq)
                (pd.min (col <$> p0 :: eq)) 1000) as [Hmed1 Hmed2];
      [discriminate| |].
    { intros x Hx. apply list_elem_of_fmap in Hx as (p & -> & Hp).
      split; [now apply Hlow | now apply Hcolrange]. }
    split; [exists pm; now split|].
    split; [exact Hlow|].
    split; [rewrite Hpm; now apply Hcolrange|].
    now split. }
  rewrite Hms, Hmf, Hrs, Hrf. split; apply Hcol; intros p Hp; now apply Hrange.
Qed.

Lemma results_prices_ordered_witness :
  exists g' results equilibrium_prices conventional_npvs,
    run_simulation scenario 0 577000 0 0 0 zero_rng =
      Ok (results, equilibrium_prices, conventional_npvs, g') /\
    ((exists p, p ∈ equilibrium_prices /\ stock_price p = min_stock_price results) /\
     (forall p, p ∈ equilibrium_prices -> min_stock_price results <= stock_price p) /\
     0 <= min_stock_price results /\
     min_stock_price results <= recommended_stock_price results /\
     recommended_stock_price results <= 1000) /\
    ((exists p, p ∈ equilibrium_prices /\ flow_price p = min_flow_price results) /\
     (forall p, p ∈ equilibrium_prices -> min_flow_price results <= flow_price p) /\
     0 <= min_flow_price results /\
     min_flow_price results <= recommended_flow_price results /\
     recommended_flow_price results <= 1000).
Proof.
  eexists _, _, _, _. split; [vm_compute; reflexivity|].
  eapply (results_prices_ordered scenario 0 577000 0 0 0 zero_rng).
  vm_compute. reflexivity.
Defined.

(** X9: in the results of a run that returns, the mean and the 75th
    percentile of the conventional distribution lie between any two
    bounds of its values, and every returned point is worth at least the
    reported percentile. *)
Theorem results_statistics_in_range
    (self : CarbonCreditSimulation)
    (timber_value cattle_mean cattle_std soy_mean soy_std : Q) (g g' : np.rng)
    (results : Results) (equilibrium_prices : list PricePoint)
    (conventional_npvs : list Q) (lo hi : Q) :
  run_simulation self timber_value cattle_mean cattle_std soy_mean soy_std g =
    Ok (results, equilibrium_prices, conventional_npvs, g') ->
  (forall v, v ∈ conventional_npvs -> lo <= v /\ v <= hi) ->
  (lo <= conventional_npv_mean results /\ conventional_npv_mean results <= hi) /\
  (lo <= conventional_npv_p75 results /\ conventional_npv_p75 results <= hi) /\
  forall p, p ∈ equilibrium_prices ->
    conventional_npv_p75 results <= conservation_npv p.
Proof.
  intros Hrun Hb.
  apply run_simulation_inv
    in Hrun as (_ & Hfind & _ & Hp & Hmean & _).
  assert (Hne : conventional_npvs <> []).
  { intros ->. rewrite percentile_empty in Hp. discriminate. }
  split; [rewrite Hmean; now apply mean_between|].
  split; [now apply (percentile_between conventional_npvs)|].
  intros p Hin.
  apply find_equilibrium_carbon_prices_inv in Hfind as (_ & thr & Hthr & ->).
  apply elem_of_grid in Hin as (_ & _ & _ & Hle). congruence.
Qed.

Lemma results_statistics_in_range_witness :
  exists g' results equilibrium_prices conventional_npvs,
    run_simulation scenario 0 577000 0 0 0 zero_rng =
      Ok (results, equilibrium_prices, conventional_npvs, g') /\
    (577000 <= conventional_npv_mean results /\
     conventional_npv_mean results <= 577000) /\
    (577000 <= conventional_npv_p75 results /\
     conventional_npv_p75 results <= 577000) /\
    forall p, p ∈ equilibrium_prices ->
      conventional_npv_p75 results <= conservation_npv p.
Proof.
  eexists _, _, _, _. split; [vm_compute; reflexivity|].
  eapply (results_statistics_in_range scenario 0 577000 0 0 0 zero_rng).
  - vm_compute. reflexivity.
  - intros v Hv. apply list_elem_of_singleton in Hv. subst v.
    split; vm_compute; discriminate.
Defined.

(** ** The conventional valuation, continued *)

Section ConventionalOutcome.
Variable self : CarbonCreditSimulation.
Variables timber_value cattle_mean cattle_std soy_mean soy_std : Q.

Lemma Qltb_ge (x y : Q) : Qltb x y = false <-> y <= x.
Proof.
  unfold Qltb. rewrite negb_false_iff. apply Qle_bool_iff.
Qed.

(** Once the two arrays are drawn the run is the loop over the trials. *)
Lemma simulate_conventional_use_sampled (g : np.rng) :
  Qltb cattle_std 0 = false -> Qltb soy_std 0 = false ->
  (0 <= num_simulations self)%Z ->
  let n := Z.to_nat (num_simulations self) in
  simulate_conventional_use self timber_value cattle_mean cattle_std
    soy_mean soy_std g =
  (conventional_npvs <-
     for_each (seq 0 n) []
       (fun conventional_npvs i =>
          cash_flows <-
            trial_cash_flows self timber_value
              (normal_samples cattle_mean cattle_std n g)
              (normal_samples soy_mean soy_std n (np.advance g n)) i ;;
          Ok (conventional_npvs ++ [calculate_npv self cash_flows None])) ;;
   Ok (conventional_npvs, np.advance (np.advance g n) n)).
Proof.
  intros Hcs Hss Hn n.
  unfold simulate_conventional_use, generate_price_scenarios.
  rewrite random_normal_ok by assumption. cbn [bind fst snd].
  rewrite random_normal_ok by assumption. cbn [bind fst snd].
  reflexivity.
Qed.

Lemma trial_cash_flows_no_years (cattle_revenues soy_revenues : list Q) (i : nat) :
  TIME_HORIZON self = 0%Z ->
  trial_cash_flows self timber_value cattle_revenues soy_revenues i =
  if Qltb 0 timber_value then Raise IndexError else Ok [].
Proof.
  intros Hh. unfold trial_cash_flows, range. rewrite Hh.
  change (np.zeros 0) with (Ok (@nil Q)). cbn [bind].
  now destruct (Qltb 0 timber_value).
Qed.

Lemma trial_cash_flows_negative (cattle_revenues soy_revenues : list Q) (i : nat) :
  (TIME_HORIZON self < 0)%Z ->
  trial_cash_flows self timber_value cattle_revenues soy_revenues i =
  Raise ValueError.
Proof.
  intros Hh. unfold trial_cash_flows, np.zeros.
  destruct (Z.ltb_spec (TIME_HORIZON self) 0); [reflexivity | lia].
Qed.
End ConventionalOutcome.

(** X10: the conventional simulation returns a distribution exactly when
    both standard deviations and the trial count are non-negative and,
    unless there is no trial at all, the horizon is at least one year or
    is zero with no positive timber value to place in year 0. *)
Theorem simulate_conventional_use_returns_iff
    (self : CarbonCreditSimulation)
    (timber_value cattle_mean cattle_std soy_mean soy_std : Q) (g : np.rng) :
  is_ok (simulate_conventional_use self timber_value cattle_mean cattle_std
           soy_mean soy_std g) = true <->
  0 <= cattle_std /\ 0 <= soy_std /\ (0 <= num_simulations self)%Z /\
  (num_simulations self = 0%Z \/ (1 <= TIME_HORIZON self)%Z \/
   (TIME_HORIZON self = 0%Z /\ timber_value <= 0)).
Proof.
  split.
  - intros Hok.
    destruct (simulate_conventional_use self timber_value cattle_mean cattle_std
                soy_mean soy_std g) as [[npvs g']|e] eqn:Hsim; [|discriminate].
    pose proof Hsim as Hinv.
    apply simulate_conventional_use_inv in Hinv as (Hcs & Hss & Hn & _).
    split; [now apply Qltb_ge|]. split; [now apply Qltb_ge|]. split; [exact Hn|].
    destruct (Z.eq_dec (num_simulations self) 0%Z) as [H0|H0]; [now left|right].
    destruct (Z.le_gt_cases 1 (TIME_HORIZON self)) as [Hh|Hh]; [now left|right].
    rewrite simulate_conventional_use_sampled in Hsim by assumption.
    destruct (Z.to_nat (num_simulations self)) as [|n] eqn:Hnat; [lia|].
    cbn [seq for_each] in Hsim.
    destruct (Z.eq_dec (TIME_HORIZON self) 0%Z) as [Hz|Hz].
    + split; [exact Hz|].
      rewrite trial_cash_flows_no_years in Hsim by exact Hz.
      destruct (Qltb 0 timber_value) eqn:Ht; [discriminate|].
      now apply Qltb_ge.
    + rewrite trial_cash_flows_negative in Hsim by lia. discriminate.
  - intros (Hcs & Hss & Hn & Hcase).
    apply Qltb_ge in Hcs, Hss.
    destruct Hcase as [H0|[Hh|[Hz Ht]]].
    + rewrite simulate_conventional_use_sampled by assumption.
      rewrite H0. reflexivity.
    + now rewrite simulate_conventional_use_ok.
    + rewrite simulate_conventional_use_sampled by assumption.
      rewrite (for_each_collect1 _ (fun _ => 0)); [reflexivity|].
      intros acc i _. rewrite trial_cash_flows_no_years by exact Hz.
      apply Qltb_ge in Ht. now rewrite Ht.
Qed.

(** X11: a valid configuration draws [2 * num_simulations] variates, the
    first half for cattle and the second half for soy, and values trial
    [i] on a vector that holds, year by year, the timber entry plus the
    cattle revenue [cattle_mean + cattle_std * z_i] (even years) or the soy
    revenue [soy_mean + soy_std * z_(n+i)] (odd years). *)
Theorem simulate_conventional_use_layout
    (self : CarbonCreditSimulation)
    (timber_value cattle_mean cattle_std soy_mean soy_std : Q) (g : np.rng) :
  (0 <= num_simulations self)%Z -> (1 <= TIME_HORIZON self)%Z ->
  0 <= cattle_std -> 0 <= soy_std ->
  let n := Z.to_nat (num_simulations self) in
  let h := Z.to_nat (TIME_HORIZON self) in
  exists npvs g',
    simulate_conventional_use self timber_value cattle_mean cattle_std
      soy_mean soy_std g = Ok (npvs, g') /\
    np.draws g' = np.draws g /\ np.pos g' = (np.pos g + 2 * n)%nat /\
    length npvs = n /\
    forall i, (i < n)%nat ->
      exists cf,
        npvs !! i = Some (calculate_npv self cf None) /\
        length cf = h /\
        forall y, (y < h)%nat ->
          cf !! y =
          Some (timber_entry timber_value y +
                rotation
                  (cattle_mean + cattle_std * np.draws g (np.pos g + i)%nat)
                  (soy_mean + soy_std * np.draws g (np.pos g + n + i)%nat) y).
Proof.
  intros Hn Hh Hcs Hss n h. apply Qltb_ge in Hcs, Hss.
  eexists _, _. split; [now apply simulate_conventional_use_ok|].
  fold n. split; [reflexivity|]. split; [cbn; lia|].
  split; [now rewrite length_fmap, length_seq|].
  intros i Hi.
  destruct (trial_cash_flows_ok
              (normal_samples cattle_mean cattle_std n g)
              (normal_samples soy_mean soy_std n (np.advance g n)) i _ _
              (normal_samples_lookup cattle_mean cattle_std n g i Hi)
              (normal_samples_lookup soy_mean soy_std n (np.advance g n) i Hi)
              self timber_value Hh) as (cf & Hcf & Hlen & Hy).
  exists cf. split; [|split; [exact Hlen | exact Hy]].
  rewrite list_lookup_fmap, lookup_seq_lt by exact Hi. cbn.
  unfold trial_npv. now rewrite Hcf.
Qed.

Lemma simulate_conventional_use_layout_witness :
  exists npvs g',
    simulate_conventional_use scenario 5000 800 200 6100 300 rng_a = Ok (npvs, g') /\
    np.draws g' = np.draws rng_a /\ np.pos g' = (np.pos rng_a + 2 * 1)%nat /\
    length npvs = 1%nat /\
    forall i, (i < 1)%nat ->
      exists cf,
        npvs !! i = Some (calculate_npv scenario cf None) /\
        length cf = 2%nat /\
        forall y, (y < 2)%nat ->
          cf !! y =
          Some (timber_entry 5000 y +
                rotation
                  (800 + 200 * np.draws rng_a (np.pos rng_a + i)%nat)
                  (6100 + 300 * np.draws rng_a (np.pos rng_a + 1 + i)%nat) y).
Proof.
  apply (simulate_conventional_use_layout scenario 5000 800 200 6100 300 rng_a).
  - simpl. lia.
  - simpl. lia.
  - vm_compute. discriminate.
  - vm_compute. discriminate.
Defined.

(** X12: the search returns a frame exactly when the horizon is at least
    one year and the conventional distribution is not empty; otherwise it
    raises in its first grid cell. *)
Theorem find_equilibrium_carbon_prices_returns_iff
    (self : CarbonCreditSimulation) (conventional_npvs : list Q) :
  is_ok (find_equilibrium_carbon_prices self conventional_npvs) = true <->
  (1 <= TIME_HORIZON self)%Z /\ conventional_npvs <> [].
Proof.
  split.
  - intros Hok.
    destruct (find_equilibrium_carbon_prices self conventional_npvs)
      as [eq|e] eqn:Hfind; [|discriminate].
    apply find_equilibrium_carbon_prices_inv in Hfind as (Hh & thr & Hthr & _).
    split; [exact Hh|]. intros ->. rewrite percentile_empty in Hthr. discriminate.
  - intros [Hh Hne].
    destruct (percentile_ok conventional_npvs Hne) as [thr Hthr].
    now rewrite (find_equilibrium_carbon_prices_ok self conventional_npvs thr Hh Hthr).
Qed.

Section TrialMonotone.
Variable self : CarbonCreditSimulation.


End TrialMonotone.



(** ** The annualisation of [main] *)

Section Annualisation.
Variable self : CarbonCreditSimulation.

Lemma growth_gt_1 :
  0 < DISCOUNT_RATE self -> (1 <= TIME_HORIZON self)%Z ->
  1 < (1 + DISCOUNT_RATE self) ^ TIME_HORIZON self.
Proof.
  intros Hr Hh. apply Qpower_1_lt; [lra | lia].
Qed.

Lemma annual_factor_defined :
  0 < DISCOUNT_RATE self -> (1 <= TIME_HORIZON self)%Z ->
  let growth := (1 + DISCOUNT_RATE self) ^ TIME_HORIZON self in
  annual_factor self = Some (DISCOUNT_RATE self * growth / (growth - 1)).
Proof.
  intros Hr Hh growth. unfold annual_factor. fold growth.
  destruct (Qeq_bool (growth - 1) 0) eqn:Hz; [|reflexivity].
  apply Qeq_bool_iff in Hz. pose proof (growth_gt_1 Hr Hh) as Hg. fold growth in Hg.
  lra.
Qed.
End Annualisation.

(** X14: for a positive discount rate and a horizon of at least one year
    the annual factor of [main] is defined and positive, and it is the
    capital recovery factor of the engine's own discounting: an amount [P]
    turned into the payment [P * annual_factor] in each of the years
    [1 .. time_horizon] has the present value [P] under [calculate_npv];
    the conventional annual revenue of [main] is the mean conventional
    value times that factor. *)
Theorem annual_factor_recovers_present_value
    (self : CarbonCreditSimulation) (results : Results) (P : Q) :
  0 < DISCOUNT_RATE self -> (1 <= TIME_HORIZON self)%Z ->
  exists factor,
    annual_factor self = Some factor /\
    0 < factor /\
    calculate_npv self
      (0 :: replicate (Z.to_nat (TIME_HORIZON self)) (P * factor)) None == P /\
    annual_stock_price self results =
      Some (recommended_stock_price results * factor) /\
    conventional_annual self results == conventional_npv_mean results * factor.
Proof.
  intros Hr Hh.
  set (r := DISCOUNT_RATE self).
  set (G := (1 + r) ^ TIME_HORIZON self).
  pose proof (growth_gt_1 self Hr Hh) as HG. fold r in HG. fold G in HG.
  exists (r * G / (G - 1)).
  split; [now apply annual_factor_defined|].
  assert (Hd : 0 < G - 1) by lra.
  assert (Hd' : ~ G - 1 == 0) by lra.
  assert (HG0 : ~ G == 0) by lra.
  split; [|split; [|split]].
  - apply Qlt_shift_div_l; [exact Hd|]. rewrite Qmult_0_l.
    apply Qmult_lt_0_compat; [exact Hr | lra].
  - pose proof (calculate_npv_level self 0 (P * (r * G / (G - 1)))
                  (Z.to_nat (TIME_HORIZON self)) r) as Hlevel.
    change (calculate_npv self
              (0 :: replicate (Z.to_nat (TIME_HORIZON self)) (P * (r * G / (G - 1))))
              (Some r))
      with (calculate_npv self
              (0 :: replicate (Z.to_nat (TIME_HORIZON self)) (P * (r * G / (G - 1))))
              None) in Hlevel.
    rewrite Hlevel.
    pose proof (annuity_closed r (Z.to_nat (TIME_HORIZON self))) as Hgeo.
    rewrite Z2Nat.id in Hgeo by lia. fold G in Hgeo.
    assert (Hr1 : ~ 1 + r == 0) by (subst r; lra).
    specialize (Hgeo Hr1).
    set (A := annuity r (Z.to_nat (TIME_HORIZON self))) in *.
    assert (Hsplit : 0 + P * (r * G / (G - 1)) * A ==
                     P * (G / (G - 1)) * (r * A)) by (field; exact Hd').
    rewrite Hsplit, Hgeo. field. split; assumption.
  - unfold annual_stock_price. now rewrite annual_factor_defined.
  - unfold conventional_annual. fold r. fold G. field. exact Hd'.
Qed.

Lemma annual_factor_recovers_present_value_witness :
  let results := {| conventional_npv_mean := 7000; conventional_npv_p75 := 7200;
                    min_stock_price := 10; min_flow_price := 0;
                    recommended_stock_price := 12; recommended_flow_price := 500 |} in
  exists factor,
    annual_factor (init 1000 (2 # 25) 30) = Some factor /\
    0 < factor /\
    calculate_npv (init 1000 (2 # 25) 30)
      (0 :: replicate 30 (12 * factor)) None == 12 /\
    annual_stock_price (init 1000 (2 # 25) 30) results = Some (12 * factor) /\
    conventional_annual (init 1000 (2 # 25) 30) results == 7000 * factor.
Proof.
  intros results.
  apply (annual_factor_recovers_present_value (init 1000 (2 # 25) 30) results 12).
  - vm_compute. reflexivity.
  - simpl. lia.
Defined.

(** X15: a run that returns had at least one trial, a horizon of at least
    one year and non-negative standard deviations; its distribution has one
    value per trial, and the run advanced the generator by exactly
    [2 * num_simulations] variates: the search and the summary draw none. *)
Theorem run_simulation_output_shape
    (self : CarbonCreditSimulation)
    (timber_value cattle_mean cattle_std soy_mean soy_std : Q) (g g' : np.rng)
    (results : Results) (equilibrium_prices : list PricePoint)
    (conventional_npvs : list Q) :
  run_simulation self timber_value cattle_mean cattle_std soy_mean soy_std g =
    Ok (results, equilibrium_prices, conventional_npvs, g') ->
  ((1 <= num_simulations self)%Z /\ (1 <= TIME_HORIZON self)%Z /\
   0 <= cattle_std /\ 0 <= soy_std) /\
  length conventional_npvs = Z.to_nat (num_simulations self) /\
  np.draws g' = np.draws g /\
  np.pos g' = (np.pos g + 2 * Z.to_nat (num_simulations self))%nat.
Proof.
  intros Hrun.
  apply run_simulation_inv in Hrun as (Hsim & Hfind & _ & Hp & _).
  apply find_equilibrium_carbon_prices_inv in Hfind as (Hh & _).
  pose proof Hsim as Hinv.
  apply simulate_conventional_use_inv in Hinv as (Hcs & Hss & Hn & Hnil).
  rewrite simulate_conventional_use_ok in Hsim by assumption.
  injection Hsim as <- <-.
  assert (Hlen : length (trial_npv self timber_value
                           (normal_samples cattle_mean cattle_std
                              (Z.to_nat (num_simulations self)) g)
                           (normal_samples soy_mean soy_std
                              (Z.to_nat (num_simulations self))
                              (np.advance g (Z.to_nat (num_simulations self))))
                         <$> seq 0 (Z.to_nat (num_simulations self))) =
                 Z.to_nat (num_simulations self))
    by now rewrite length_fmap, length_seq.
  split; [split; [|split; [exact Hh | split; now apply Qltb_ge]]|].
  - destruct (Z.eq_dec (num_simulations self) 0%Z) as [H0|H0]; [|lia].
    rewrite H0 in Hp. change (Z.to_nat 0) with 0%nat in Hp. cbn [seq fmap list_fmap] in Hp.
    rewrite percentile_empty in Hp. discriminate.
  - split; [exact Hlen|]. split; [reflexivity | cbn; lia].
Qed.

Lemma run_simulation_output_shape_witness :
  exists g' results equilibrium_prices conventional_npvs,
    run_simulation scenario 0 577000 0 0 0 zero_rng =
      Ok (results, equilibrium_prices, conventional_npvs, g') /\
    ((1 <= 1)%Z /\ (1 <= 2)%Z /\ 0 <= 0 /\ 0 <= 0) /\
    length conventional_npvs = 1%nat /\
    np.draws g' = np.draws zero_rng /\
    np.pos g' = (np.pos zero_rng + 2 * 1)%nat.
Proof.
  eexists _, _, _, _. split; [vm_compute; reflexivity|].
  eapply (run_simulation_output_shape scenario 0 577000 0 0 0 zero_rng).
  vm_compute. reflexivity.
Defined.

(** ** Invalid configurations *)

Section RaiseKinds.
Variable self : CarbonCreditSimulation.

Lemma for_each_raise_inv {A S : Type} (P : exn -> Prop) (xs : list A) (s : S)
    (body : S -> A -> result S) (e : exn) :
  (forall s x e, body s x = Raise e -> P e) ->
  for_each xs s body = Raise e -> P e.
Proof.
  intros Hbody. revert s. induction xs as [|x xs IH]; intros s; cbn [for_each].
  - discriminate.
  - destruct (body s x) as [s'|e'] eqn:Hb; cbn [bind].
    + apply IH.
    + intros [= <-]. now apply (Hbody s x).
Qed.

Lemma setitem_raise_kind (a : list Q) (i : nat) (x : Q) (e : exn) :
  np.setitem a i x = Raise e -> e = IndexError.
Proof. unfold np.setitem. destruct (a !! i); [discriminate | congruence]. Qed.

Lemma getitem_raise_kind (a : list Q) (i : nat) (e : exn) :
  np.getitem a i = Raise e -> e = IndexError.
Proof. unfold np.getitem. destruct (a !! i); [discriminate | congruence]. Qed.

Lemma iadd_item_raise_kind (a : list Q) (i : nat) (x : Q) (e : exn) :
  np.iadd_item a i x = Raise e -> e = IndexError.
Proof.
  unfold np.iadd_item.
  destruct (np.getitem a i) as [v|e'] eqn:Hg; cbn [bind].
  - apply setitem_raise_kind.
  - intros [= <-]. now apply (getitem_raise_kind a i).
Qed.

Lemma zeros_raise_kind (n : Z) (e : exn) :
  np.zeros n = Raise e -> e = ValueError.
Proof. unfold np.zeros. destruct (n <? 0)%Z; [congruence | discriminate]. Qed.

Lemma percentile_raise_kind (a : list Q) (e : exn) :
  np.percentile a 75 = Raise e -> e = IndexError.
Proof.
  unfold np.percentile. change (Qltb 75 0 || Qltb 100 75) with false. cbv zeta.
  destruct (np.getitem _ _) as [x_lo|e1] eqn:H1; cbn [bind].
  - destruct (np.getitem _ _) as [x_hi|e2] eqn:H2 in |- *; cbn [bind];
      [discriminate|].
    intros [= <-]. now apply getitem_raise_kind in H2.
  - intros [= <-]. now apply getitem_raise_kind in H1.
Qed.

Lemma rotation_step_raise_kind (cattle_revenues soy_revenues : list Q)
    (i : nat) (a : list Q) (y : nat) (e : exn) :
  rotation_step cattle_revenues soy_revenues i a y = Raise e -> e = IndexError.
Proof.
  unfold rotation_step.
  destruct (Nat.even y);
    (destruct (np.getitem _ i) as [v|e'] eqn:Hg; cbn [bind];
     [apply iadd_item_raise_kind
     |intros [= <-]; now apply getitem_raise_kind in Hg]).
Qed.

Lemma trial_cash_flows_raise_kind (timber_value : Q)
    (cattle_revenues soy_revenues : list Q) (i : nat) (e : exn) :
  trial_cash_flows self timber_value cattle_revenues soy_revenues i = Raise e ->
  e = ValueError \/ e = IndexError.
Proof.
  unfold trial_cash_flows.
  destruct (np.zeros (TIME_HORIZON self)) as [a|e0] eqn:Hz; cbn [bind].
  - destruct (if Qltb 0 timber_value then np.setitem a 0 timber_value else Ok a)
      as [a'|e1] eqn:Hs; cbn [bind].
    + intros H. right. revert H.
      apply (for_each_raise_inv (fun e => e = IndexError)).
      intros s x e'. apply rotation_step_raise_kind.
    + intros [= <-]. right.
      destruct (Qltb 0 timber_value); [|discriminate].
      now apply setitem_raise_kind in Hs.
  - intros [= <-]. left. now apply zeros_raise_kind in Hz.
Qed.

Lemma conservation_cash_flows_raise_kind (sp fp : Q) (e : exn) :
  conservation_cash_flows self sp fp = Raise e ->
  e = ValueError \/ e = IndexError.
Proof.
  unfold conservation_cash_flows.
  destruct (np.zeros (TIME_HORIZON self)) as [a|e0] eqn:Hz; cbn [bind].
  - destruct (np.setitem a 0 _) as [a'|e1] eqn:Hs; cbn [bind]; [discriminate|].
    intros [= <-]. right. now apply setitem_raise_kind in Hs.
  - intros [= <-]. left. now apply zeros_raise_kind in Hz.
Qed.

Lemma find_equilibrium_carbon_prices_raise_kind (npvs : list Q) (e : exn) :
  find_equilibrium_carbon_prices self npvs = Raise e ->
  e = ValueError \/ e = IndexError.
Proof.
  unfold find_equilibrium_carbon_prices.
  apply (for_each_raise_inv (fun e => e = ValueError \/ e = IndexError)).
  intros acc sp e1.
  apply (for_each_raise_inv (fun e => e = ValueError \/ e = IndexError)).
  intros acc' fp e2. unfold grid_cell.
  destruct (conservation_cash_flows self sp fp) as [cf|e3] eqn:Hcf; cbn [bind].
  - destruct (np.percentile npvs 75) as [thr|e4] eqn:Hp; cbn [bind].
    + destruct (Qle_bool thr _); discriminate.
    + intros [= <-]. right. now apply percentile_raise_kind in Hp.
  - intros [= <-]. now apply conservation_cash_flows_raise_kind in Hcf.
Qed.

Lemma simulate_conventional_use_raise_kind
    (timber_value cattle_mean cattle_std soy_mean soy_std : Q) (g : np.rng)
    (e : exn) :
  simulate_conventional_use self timber_value cattle_mean cattle_std
    soy_mean soy_std g = Raise e ->
  e = ValueError \/ e = IndexError.
Proof.
  unfold simulate_conventional_use, generate_price_scenarios, np.random_normal.
  destruct (Qltb cattle_std 0); [intros [= <-]; now left|].
  destruct (num_simulations self <? 0)%Z; [intros [= <-]; now left|].
  cbn [bind fst snd].
  destruct (Qltb soy_std 0); [intros [= <-]; now left|].
  cbn [bind fst snd].
  destruct (for_each _ _ _) as [npvs|e'] eqn:Hloop; cbn [bind]; [discriminate|].
  intros [= <-]. revert Hloop.
  apply (for_each_raise_inv (fun e => e = ValueError \/ e = IndexError)).
  intros acc i e1.
  destruct (trial_cash_flows _ _ _ _ i) as [cf|e2] eqn:Ht; cbn [bind];
    [discriminate|].
  intros [= <-]. now apply trial_cash_flows_raise_kind in Ht.
Qed.
End RaiseKinds.

(** C6, as the code has it.  The engine validates nothing and has no
    error of its own for a configuration.
    - A trial count or a horizon that is not positive, or a negative
      standard deviation, makes the run raise [ValueError] or [IndexError],
      the exceptions of numpy: no output is produced.
    - A negative trial count or cattle deviation makes the first sampling
      call raise, before a variate is drawn.
    - A negative soy deviation, the trial count and the cattle deviation
      being non-negative, makes the second sampling call raise, after the
      first drew its variates.
    - With a non-negative trial count and non-negative deviations both
      sampling calls return: a trial count of 0 and a horizon that is not
      positive are met only after sampling.
    - The discount rate is never looked at: whatever it is, a non-negative
      trial count, non-negative deviations and a horizon of at least one
      year give the conventional distribution. *)
Theorem C6_invalid_configuration_raises
    (self : CarbonCreditSimulation)
    (timber_value cattle_mean cattle_std soy_mean soy_std : Q) (g : np.rng) :
  ((num_simulations self <= 0)%Z \/ (TIME_HORIZON self <= 0)%Z \/
   cattle_std < 0 \/ soy_std < 0 ->
   exists e,
     run_simulation self timber_value cattle_mean cattle_std soy_mean soy_std g =
       Raise e /\
     (e = ValueError \/ e = IndexError)) /\
  ((num_simulations self < 0)%Z \/ cattle_std < 0 ->
   generate_price_scenarios self cattle_mean cattle_std g = Raise ValueError /\
   run_simulation self timber_value cattle_mean cattle_std soy_mean soy_std g =
     Raise ValueError) /\
  ((0 <= num_simulations self)%Z -> 0 <= cattle_std -> soy_std < 0 ->
   generate_price_scenarios self cattle_mean cattle_std g =
     Ok (normal_samples cattle_mean cattle_std
           (Z.to_nat (num_simulations self)) g,
         np.advance g (Z.to_nat (num_simulations self))) /\
   generate_price_scenarios self soy_mean soy_std
     (np.advance g (Z.to_nat (num_simulations self))) = Raise ValueError /\
   run_simulation self timber_value cattle_mean cattle_std soy_mean soy_std g =
     Raise ValueError) /\
  ((0 <= num_simulations self)%Z -> 0 <= cattle_std -> 0 <= soy_std ->
   generate_price_scenarios self cattle_mean cattle_std g =
     Ok (normal_samples cattle_mean cattle_std
           (Z.to_nat (num_simulations self)) g,
         np.advance g (Z.to_nat (num_simulations self))) /\
   generate_price_scenarios self soy_mean soy_std
     (np.advance g (Z.to_nat (num_simulations self))) =
     Ok (normal_samples soy_mean soy_std (Z.to_nat (num_simulations self))
           (np.advance g (Z.to_nat (num_simulations self))),
         np.advance (np.advance g (Z.to_nat (num_simulations self)))
           (Z.to_nat (num_simulations self)))) /\
  ((0 <= num_simulations self)%Z -> (1 <= TIME_HORIZON self)%Z ->
   0 <= cattle_std -> 0 <= soy_std ->
   exists npvs g',
     simulate_conventional_use self timber_value cattle_mean cattle_std
       soy_mean soy_std g = Ok (npvs, g')).
Proof.
  split; [|split; [|split; [|split]]].
  - intros Hbad. unfold run_simulation.
    destruct (simulate_conventional_use self timber_value cattle_mean cattle_std
                soy_mean soy_std g) as [[npvs g']|e] eqn:Hsim; cbn [bind fst snd].
    + apply simulate_conventional_use_inv in Hsim as (Hcs & Hss & Hn & Hnil).
      destruct (find_equilibrium_carbon_prices_raise self npvs) as [e He].
      * destruct Hbad as [Hn0|[Hh|[Hc|Hs]]].
        -- right. rewrite Hnil by lia. reflexivity.
        -- now left.
        -- apply Qltb_lt in Hc. congruence.
        -- apply Qltb_lt in Hs. congruence.
      * exists e. rewrite He. split; [reflexivity|].
        now apply (find_equilibrium_carbon_prices_raise_kind self npvs).
    + exists e. split; [reflexivity|].
      now apply simulate_conventional_use_raise_kind in Hsim.
  - intros Hbad.
    assert (Hgen : generate_price_scenarios self cattle_mean cattle_std g =
                   Raise ValueError).
    { apply random_normal_raise. destruct Hbad as [Hn|Hc]; [now right|left].
      now apply Qltb_lt. }
    split; [exact Hgen|].
    unfold run_simulation, simulate_conventional_use. now rewrite Hgen.
  - intros Hn Hcs Hss. apply Qltb_ge in Hcs. apply Qltb_lt in Hss.
    assert (Hc : generate_price_scenarios self cattle_mean cattle_std g =
                 Ok (normal_samples cattle_mean cattle_std
                       (Z.to_nat (num_simulations self)) g,
                     np.advance g (Z.to_nat (num_simulations self))))
      by now apply random_normal_ok.
    assert (Hs : generate_price_scenarios self soy_mean soy_std
                   (np.advance g (Z.to_nat (num_simulations self))) =
                 Raise ValueError)
      by (apply random_normal_raise; now left).
    split; [exact Hc|]. split; [exact Hs|].
    unfold run_simulation, simulate_conventional_use.
    rewrite Hc. cbn [bind fst snd]. now rewrite Hs.
  - intros Hn Hcs Hss. apply Qltb_ge in Hcs, Hss.
    split; now apply random_normal_ok.
  - intros Hn Hh Hcs Hss. apply Qltb_ge in Hcs, Hss.
    eexists _, _. now apply simulate_conventional_use_ok.
Qed.

Lemma C6_witness :
  (exists e,
     run_simulation (init 3 (2 # 25) 30) 5000 800 200 6100 (-300 # 1) zero_rng =
       Raise e /\
     (e = ValueError \/ e = IndexError)) /\
  (generate_price_scenarios (init 3 (2 # 25) 30) 800 200 zero_rng =
     Ok (normal_samples 800 200 3 zero_rng, np.advance zero_rng 3) /\
   generate_price_scenarios (init 3 (2 # 25) 30) 6100 (-300 # 1)
     (np.advance zero_rng 3) = Raise ValueError /\
   run_simulation (init 3 (2 # 25) 30) 5000 800 200 6100 (-300 # 1) zero_rng =
     Raise ValueError).
Proof.
  destruct (C6_invalid_configuration_raises (init 3 (2 # 25) 30) 5000 800 200 6100
              (-300 # 1) zero_rng) as (Hraise & _ & Hsoy & _).
  split.
  - apply Hraise. right. right. right. vm_compute. reflexivity.
  - apply Hsoy.
    + simpl. lia.
    + vm_compute. discriminate.
    + vm_compute. reflexivity.
Defined.

(** C6, as the claim has it, fails on three counts.  A discount rate of
    1.5 lies outside (0, 1) and the run returns its output all the same.
    With a negative soy deviation the first sampling call has drawn its
    variates when the run raises.  And the run raises the one
    [ValueError] for a negative cattle deviation and for a negative soy
    deviation: the exception does not tell the field. *)
Lemma C6_configuration_not_validated :
  (~ (0 < DISCOUNT_RATE (init 1 (3 # 2) 1) /\ DISCOUNT_RATE (init 1 (3 # 2) 1) < 1) /\
   exists out,
     run_simulation (init 1 (3 # 2) 1) 0 569000 0 6100 0 zero_rng = Ok out) /\
  ((exists samples g1,
      generate_price_scenarios (init 3 (2 # 25) 30) 800 200 zero_rng =
        Ok (samples, g1) /\
      length samples = 3%nat /\ np.pos g1 = (np.pos zero_rng + 3)%nat) /\
   run_simulation (init 3 (2 # 25) 30) 5000 800 200 6100 (-300 # 1) zero_rng =
     Raise ValueError) /\
  (run_simulation (init 3 (2 # 25) 30) 5000 800 (-200 # 1) 6100 300 zero_rng =
     Raise ValueError /\
   run_simulation (init 3 (2 # 25) 30) 5000 800 200 6100 (-300 # 1) zero_rng =
     Raise ValueError).
Proof.
  split; [split|split; [split|split]].
  - intros [_ H]. unfold Qlt in H. simpl in H. lia.
  - eexists. vm_compute. reflexivity.
  - eexists _, _. split; [vm_compute; reflexivity|]. split; reflexivity.
  - vm_compute. reflexivity.
  - vm_compute. reflexivity.
  - vm_compute. reflexivity.
Qed.
